(** * miflora-exporter.py: a shallow embedding and its verification

    The exporter is one Python script: it loads a registry of probes from a
    JSON file, and then either scans once for unknown probes ([--scan]) or
    starts the Prometheus HTTP server, reads every probe's firmware version
    once and polls every probe every ten minutes, forever.

    The script is embedded as a program of a state and exception monad over
    a [world]: the metric samples of the seven module-level metrics, the
    chronological trace of the actions visible from outside (files opened,
    lines printed, log records, BLE requests, the HTTP server start, sleeps)
    and a clock counting the BLE requests issued so far.  Whatever the script
    does not decide itself (the file system, [json.load], the BLE client,
    [str] on a registry value, binding the port) is a field of an
    [environment], over which every theorem is universally quantified. *)

From Stdlib Require Import ZArith QArith_base.
From stdpp Require Import base gmap sets list strings.

Close Scope Q_scope.
Set Warnings "-register-all".

(** ** Python values and exceptions *)

(** What [json.load] can return.  A [dict] keeps its insertion order, which
    is the order [plants.items()] iterates in: an association list. *)
Inductive pyval : Type :=
  | PyNone
  | PyBool (b : bool)
  | PyInt (z : Z)
  | PyFloat (q : Q)
  | PyStr (s : string)
  | PyList (l : list pyval)
  | PyDict (d : list (string * pyval)).

Abbreviation pydict := (list (string * pyval)).

(** The exceptions the script can meet; every one is a subclass of Python's
    [Exception], so [except Exception] catches each of them. *)
Inductive exn : Type :=
  | OSError (msg : string)
  | JSONDecodeError (msg : string)
  | AssertionError
  | BluetoothBackendException (msg : string)
  | OtherException (cls msg : string).

Inductive result (A : Type) : Type :=
  | Ok (a : A)
  | Err (e : exn).
Arguments Ok {A} a.
Arguments Err {A} e.

(** ** The metrics (module level of the script) *)

(** [error_count_metric] is the only [Counter]; the six [Gauge]s are: *)
Inductive gauge : Type :=
  | battery_level_metric
  | conductivity_metric
  | firmware_version_metric
  | light_metric
  | moisture_metric
  | temperature_metric.

Global Instance gauge_eq_dec : EqDecision gauge.
Proof. solve_decision. Defined.

Definition gauge_code (g : gauge) : nat :=
  match g with
  | battery_level_metric => 0
  | conductivity_metric => 1
  | firmware_version_metric => 2
  | light_metric => 3
  | moisture_metric => 4
  | temperature_metric => 5
  end.

Definition gauge_of_code (n : nat) : option gauge :=
  match n with
  | 0 => Some battery_level_metric
  | 1 => Some conductivity_metric
  | 2 => Some firmware_version_metric
  | 3 => Some light_metric
  | 4 => Some moisture_metric
  | 5 => Some temperature_metric
  | _ => None
  end.

Global Instance gauge_countable : Countable gauge.
Proof.
  apply (inj_countable gauge_code gauge_of_code). by intros [].
Defined.

(** A labelled child of a gauge: the gauge and its tuple of label values. *)
Abbreviation child := (gauge * list string)%type.

(** ** The world *)

(** The requests the script sends to a [MiFloraPoller]. *)
Inductive request : Type :=
  | FirmwareVersion
  | BatteryLevel
  | ParameterValue (name : string).

Inductive event : Type :=
  | EvBasicConfig
  | EvOpen (file : string)
  | EvScan
  | EvPrint (line : string)
  | EvStartHttpServer (port : Z)
  | EvLogStarted (port : Z)
  | EvNewPoller (mac : string)
  | EvRead (mac : string) (r : request)
  | EvLogError (mac : string) (plant : pyval) (err : exn)
  | EvLogInitialized (plant : pyval) (mac : string)
  | EvSleep (seconds : Z).

Record world : Type := World {
  clock : nat;
  errors : gmap (list string) nat;
  gauges : gmap child Q;
  trace : list event
}.

Definition set_clock (c : nat) (w : world) : world :=
  World c (errors w) (gauges w) (trace w).
Definition set_errors (e : gmap (list string) nat) (w : world) : world :=
  World (clock w) e (gauges w) (trace w).
Definition set_gauges (g : gmap child Q) (w : world) : world :=
  World (clock w) (errors w) g (trace w).
Definition emit (e : event) (w : world) : world :=
  World (clock w) (errors w) (gauges w) (trace w ++ [e]).

(** The world a fresh process starts in: no labelled child exists yet. *)
Definition initial_world : world := World 0 ∅ ∅ [].

(** What a scrape shows for a sample; a child that was never created is
    read as 0, the value it is created with. *)
Definition error_count (w : world) (mac plant : string) : nat :=
  default 0 (errors w !! [mac; plant]).
Definition gauge_value (w : world) (g : gauge) (lv : list string) : Q :=
  default 0%Q (gauges w !! (g, lv)).

(** ** The monad: state, exceptions, and a loop that may still be running *)

Inductive outcome (A : Type) : Type :=
  | Returned (a : A)
  | Raised (e : exn)
  | Running.
Arguments Returned {A} a.
Arguments Raised {A} e.
Arguments Running {A}.

Definition M (A : Type) : Type := world → outcome A * world.

Global Instance M_ret : MRet M := λ A a w, (Returned a, w).
Global Instance M_bind : MBind M := λ A B f m w,
  match m w with
  | (Returned a, w') => f a w'
  | (Raised e, w') => (Raised e, w')
  | (Running, w') => (Running, w')
  end.

Definition raise {A} (e : exn) : M A := λ w, (Raised e, w).
Definition lift {A} (r : result A) : M A :=
  match r with Ok a => mret a | Err e => raise e end.
Definition get_clock : M nat := λ w, (Returned (clock w), w).
Definition tick : M unit := λ w, (Returned tt, set_clock (S (clock w)) w).
Definition log (e : event) : M unit := λ w, (Returned tt, emit e w).

(** [try: body except Exception as err: handler err] *)
Definition try_except {A} (body : M A) (handler : exn → M A) : M A := λ w,
  match body w with
  | (Raised e, w') => handler e w'
  | r => r
  end.

(** [for x in l: body x] *)
Fixpoint for_each {X} (l : list X) (body : X → M unit) : M unit :=
  match l with
  | [] => mret tt
  | x :: l' => body x ;; for_each l' body
  end.

(** [while True: body], observed for [fuel] iterations: a loop that is
    still going when the observation ends is [Running]. *)
Fixpoint while_true (fuel : nat) (body : M unit) : M unit :=
  match fuel with
  | 0 => λ w, (Running, w)
  | S n => body ;; while_true n body
  end.

Definition run {A} (m : M A) (w : world) : outcome A := (m w).1.
Definition exec {A} (m : M A) (w : world) : world := (m w).2.

(** ** prometheus_client: [labels], [set], [inc] *)

(** [metric.labels(...)] returns the child for the label values, creating
    it with value 0 when it does not exist yet. *)
Definition created (c : child) (m : gmap child Q) : gmap child Q :=
  match m !! c with
  | Some _ => m
  | None => <[c := 0%Q]> m
  end.

Definition labels (g : gauge) (lv : list string) : M child := λ w,
  (Returned (g, lv), set_gauges (created (g, lv) (gauges w)) w).

Definition gauge_set (c : child) (v : Q) : M unit := λ w,
  (Returned tt, set_gauges (<[c := v]> (gauges w)) w).

(** [error_count_metric.labels(mac=mac, plant=plant).inc()] *)
Definition error_count_inc (mac plant : string) : M unit := λ w,
  (Returned tt,
   set_errors (<[[mac; plant] := S (default 0 (errors w !! [mac; plant]))]>
                 (errors w)) w).

(** ** The environment *)

(** Everything the script asks of its collaborators.  The BLE client is
    asked at a clock value (the number of BLE requests issued before), so
    an answer may change from one request to the next.  [env_open] is
    [open(file)] followed by the read [json.load] does; [env_str] is the
    [str] that [labels] applies to a label value; a reading is a rational,
    which [Gauge.set] stores as it is. *)
Record environment : Type := Environment {
  env_open : string → result string;
  env_json_load : string → result pyval;
  env_str : pyval → string;
  env_start_http_server : Z → result unit;
  env_miflora_scan : nat → result (list string);
  env_firmware_version : nat → string → result string;
  env_battery_level : nat → string → result Q;
  env_parameter_value : nat → string → string → result Q
}.

(** [MiFloraPoller(mac, BluepyBackend)]: the handle only remembers the
    address; no connection is opened before the first request. *)
Record MiFloraPoller : Type := { poller_mac : string }.

(** [argparse]'s namespace after [parser.parse_args()]. *)
Record Namespace : Type := {
  args_plants : string;
  args_scan : bool;
  args_port : Z
}.

Abbreviation probe := (string * pyval * MiFloraPoller)%type.

Section Exporter.

Variable E : environment.

(** *** Calls into the collaborators *)

Definition ble {A} (ev : event) (answer : nat → result A) : M A :=
  log ev ;; c ← get_clock ; tick ;; lift (answer c).

Definition py_open_read (file : string) : M string :=
  log (EvOpen file) ;; lift (env_open E file).

Definition json_load (contents : string) : M pyval :=
  lift (env_json_load E contents).

Definition print (line : string) : M unit := log (EvPrint line).

Definition miflora_scan : M (list string) := ble EvScan (env_miflora_scan E).

Definition start_http_server (port : Z) : M unit :=
  log (EvStartHttpServer port) ;; lift (env_start_http_server E port).

Definition new_MiFloraPoller (mac : string) : M MiFloraPoller :=
  log (EvNewPoller mac) ;; mret {| poller_mac := mac |}.

Definition firmware_version (poller : MiFloraPoller) : M string :=
  ble (EvRead (poller_mac poller) FirmwareVersion)
      (λ c, env_firmware_version E c (poller_mac poller)).

Definition battery_level (poller : MiFloraPoller) : M Q :=
  ble (EvRead (poller_mac poller) BatteryLevel)
      (λ c, env_battery_level E c (poller_mac poller)).

Definition parameter_value (poller : MiFloraPoller) (name : string) : M Q :=
  ble (EvRead (poller_mac poller) (ParameterValue name))
      (λ c, env_parameter_value E c (poller_mac poller) name).

Definition time_sleep (seconds : Z) : M unit := log (EvSleep seconds).

(** [metric.labels(...).set(read)]: Python evaluates [metric.labels(...)]
    first, then the argument [read], then calls [set]. *)
Definition labels_set (g : gauge) (lv : list string) (read : M Q) : M unit :=
  c ← labels g lv ; v ← read ; gauge_set c v.

(** *** [load_plants] (lines 23-27) *)

(** The [assert] is executed: the script is run by [python3], without
    [-O]. *)
Definition load_plants (file : string) : M pydict :=
  contents ← py_open_read file ;
  plants ← json_load contents ;
  match plants with
  | PyDict d => mret d
  | _ => raise AssertionError
  end.

(** *** [scan_for_new_devices] (lines 30-39) *)

(** A Python [set] iterates in an order of its own; [elements] stands for
    it, and nothing below depends on which order it is. *)
Definition scan_for_new_devices (plants : pydict) : M unit :=
  let known_macs : gset string := list_to_set plants.*1 in
  found ← miflora_scan ;
  let nearby_macs : gset string := list_to_set found in
  let new_macs := nearby_macs ∖ known_macs in
  if decide (size new_macs = 0) then
    print "no new devices detected"
  else
    for_each (elements new_macs) (λ res, print ("new device: " +:+ res)).

(** *** [main] (lines 42-87) *)

(** The list comprehension of lines 62-65. *)
Fixpoint make_pollers (items : pydict) : M (list probe) :=
  match items with
  | [] => mret []
  | (mac, plant) :: rest =>
      poller ← new_MiFloraPoller mac ;
      pollers ← make_pollers rest ;
      mret ((mac, plant, poller) :: pollers)
  end.

(** The body of the loop of lines 67-74. *)
Definition init_probe (p : probe) : M unit :=
  let '(mac, plant, poller) := p in
  try_except
    (version ← firmware_version poller ;
     c ← labels firmware_version_metric [env_str E plant; version] ;
     gauge_set c 1%Q)
    (λ err,
     error_count_inc mac (env_str E plant) ;;
     log (EvLogError mac plant err)) ;;
  log (EvLogInitialized plant mac).

(** The [try] block of lines 78-83, and the whole body of the loop of
    lines 77-86. *)
Definition poll_reads (plant : pyval) (poller : MiFloraPoller) : M unit :=
  labels_set battery_level_metric [env_str E plant] (battery_level poller) ;;
  labels_set conductivity_metric [env_str E plant]
             (parameter_value poller "conductivity") ;;
  labels_set light_metric [env_str E plant] (parameter_value poller "light") ;;
  labels_set moisture_metric [env_str E plant]
             (parameter_value poller "moisture") ;;
  labels_set temperature_metric [env_str E plant]
             (parameter_value poller "temperature").

Definition poll_probe (p : probe) : M unit :=
  let '(mac, plant, poller) := p in
  try_except
    (poll_reads plant poller)
    (λ err,
     error_count_inc mac (env_str E plant) ;;
     log (EvLogError mac plant err)).

(** The body of [while True] (lines 77-87). *)
Definition polling_cycle (pollers : list probe) : M unit :=
  for_each pollers poll_probe ;;
  time_sleep (10 * 60).

Definition main (fuel : nat) (args : Namespace) : M unit :=
  log EvBasicConfig ;;
  plants ← load_plants (args_plants args) ;
  if args_scan args then
    scan_for_new_devices plants
  else
    start_http_server (args_port args) ;;
    log (EvLogStarted (args_port args)) ;;
    pollers ← make_pollers plants ;
    for_each pollers init_probe ;;
    while_true fuel (polling_cycle pollers).

End Exporter.

(** ** Reading the environment and the trace *)

(** The five statements of the [try] block as a table: the gauge a
    statement sets, the request it sends, and the client's answer to that
    request at a clock value. *)
Abbreviation schedule := (list (gauge * request * (nat → result Q))).

Definition poll_schedule (E : environment) (pmac : string) : schedule :=
  [ (battery_level_metric, BatteryLevel,
     λ c, env_battery_level E c pmac);
    (conductivity_metric, ParameterValue "conductivity",
     λ c, env_parameter_value E c pmac "conductivity");
    (light_metric, ParameterValue "light",
     λ c, env_parameter_value E c pmac "light");
    (moisture_metric, ParameterValue "moisture",
     λ c, env_parameter_value E c pmac "moisture");
    (temperature_metric, ParameterValue "temperature",
     λ c, env_parameter_value E c pmac "temperature") ].

(** What the client answers when the requests of a schedule are sent one
    after the other from clock [c] on: the values of the requests that
    succeed, and the exception of the first one that raises, if any.  No
    request is sent after that one. *)
Fixpoint replies (sch : schedule) (c : nat) : list Q * option exn :=
  match sch with
  | [] => ([], None)
  | (_, _, answer) :: rest =>
      match answer c with
      | Ok v => let '(vs, e) := replies rest (S c) in (v :: vs, e)
      | Err e => ([], Some e)
      end
  end.

(** The requests a trace shows for a schedule. *)
Definition read_events (pmac : string) (sch : schedule) : list event :=
  (λ s, EvRead pmac s.1.2) <$> sch.

(** The probes a trace shows a polling attempt for (every attempt starts
    with the battery request), in order. *)
Definition polled (t : list event) : list string :=
  omap (λ e, match e with EvRead mac BatteryLevel => Some mac | _ => None end) t.

(** The probes a trace shows a firmware-version request for, in order. *)
Definition asked_firmware (t : list event) : list string :=
  omap (λ e, match e with EvRead mac FirmwareVersion => Some mac | _ => None end) t.

(** The counter children ([mac], [plant]) of the error records of a trace. *)
Definition logged_errors (E : environment) (t : list event) : list (list string) :=
  omap (λ e, match e with
             | EvLogError mac plant _ => Some [mac; env_str E plant]
             | _ => None
             end) t.

Definition is_sleep (e : event) : bool :=
  match e with EvSleep _ => true | _ => false end.

(** The events of scan mode: configuring the log, opening the registry
    file, the one scan and the printed lines. *)
Definition scan_mode_event (e : event) : bool :=
  match e with
  | EvBasicConfig | EvOpen _ | EvScan | EvPrint _ => true
  | _ => false
  end.

(** What the spec calls a ConfigError of a registry file: [open] raises
    (the file is missing or unreadable), [json.load] raises (it is not
    JSON), or the [assert] fails (its top-level value is not an object). *)
Inductive ConfigError (E : environment) (file : string) : exn → Prop :=
  | config_unreadable e :
      env_open E file = Err e → ConfigError E file e
  | config_unparseable contents e :
      env_open E file = Ok contents →
      env_json_load E contents = Err e →
      ConfigError E file e
  | config_not_an_object contents v :
      env_open E file = Ok contents →
      env_json_load E contents = Ok v →
      (∀ d, v ≠ PyDict d) →
      ConfigError E file AssertionError.

(** A probe as the comprehension of lines 62-65 builds it. *)
Definition make_probe (item : string * pyval) : probe :=
  (item.1, item.2, {| poller_mac := item.1 |}).

Definition probe_mac (p : probe) : string := p.1.1.
Definition probe_plant (p : probe) : pyval := p.1.2.
Definition probe_poller (p : probe) : MiFloraPoller := p.2.

(** The gauges of the first [n] statements of a schedule. *)
Abbreviation gauges_of n sch := (take n sch.*1.*1).

(** The number of requests sent for a schedule with the given replies. *)
Definition issued (r : list Q * option exn) : nat :=
  length r.1 + match r.2 with Some _ => 1 | None => 0 end.

(** The [try] block for an arbitrary table of statements. *)
Fixpoint run_schedule (lbl pmac : string) (sch : schedule) : M unit :=
  match sch with
  | [] => mret tt
  | (g, r, answer) :: rest =>
      labels_set g [lbl] (ble (EvRead pmac r) answer) ;;
      run_schedule lbl pmac rest
  end.

(** The events of one probe's turn in a cycle that begins at clock [c]:
    the requests up to the first one that raises (all five if none does),
    then one error record if one raised. *)
Definition turn_replies (E : environment) (p : probe) (c : nat) : list Q * option exn :=
  replies (poll_schedule E (poller_mac (probe_poller p))) c.

Definition turn_events (E : environment) (p : probe) (c : nat) : list event :=
  read_events (poller_mac (probe_poller p))
              (take (issued (turn_replies E p c))
                    (poll_schedule E (poller_mac (probe_poller p))))
  ++ match (turn_replies E p c).2 with
     | Some e => [EvLogError (probe_mac p) (probe_plant p) e]
     | None => []
     end.

(** The events of the turns of all probes, one after the other. *)
Fixpoint cycle_events (E : environment) (pollers : list probe) (c : nat) : list event :=
  match pollers with
  | [] => []
  | p :: rest =>
      turn_events E p c ++ cycle_events E rest (c + issued (turn_replies E p c))
  end.

(** How often a counter child occurs among the error records of a trace. *)
Definition times_logged (E : environment) (key : list string) (t : list event) : nat :=
  length (filter (λ k, k = key) (logged_errors E t)).

(** ** A garden to run the script in *)

(** Three probes.  The registry file maps the first two to the same plant
    name; the third probe answers the battery request and raises on the
    firmware and conductivity requests.  A fourth probe is in range and not
    in the registry.  Besides the registry there is a file holding a JSON
    array and a file that is not JSON; any other file is missing. *)
Definition probe_01 : string := "AA:BB:CC:DD:EE:01".
Definition probe_02 : string := "AA:BB:CC:DD:EE:02".
Definition probe_03 : string := "AA:BB:CC:DD:EE:03".
Definition probe_04 : string := "AA:BB:CC:DD:EE:04".

Definition garden_registry : pydict :=
  [ (probe_01, PyStr "basil"); (probe_02, PyStr "basil"); (probe_03, PyStr "mint") ].

Definition unreachable : exn := BluetoothBackendException "could not connect".

Definition garden : environment := {|
  env_open file :=
    if decide (file = "plants.json") then Ok "{ the registry }"
    else if decide (file = "array.json") then Ok "[]"
    else if decide (file = "broken.json") then Ok "{"
    else Err (OSError "No such file or directory");
  env_json_load contents :=
    if decide (contents = "{ the registry }") then Ok (PyDict garden_registry)
    else if decide (contents = "[]") then Ok (PyList [])
    else Err (JSONDecodeError "Expecting property name");
  env_str v :=
    match v with
    | PyStr s => s
    | PyNone => "None"
    | PyBool true => "True"
    | PyBool false => "False"
    | _ => ""
    end;
  env_start_http_server _ := Ok tt;
  env_miflora_scan _ := Ok [probe_04; probe_01; probe_02; probe_03];
  env_firmware_version _ mac :=
    if decide (mac = probe_03) then Err unreachable else Ok "3.2.1";
  env_battery_level _ mac :=
    if decide (mac = probe_01) then Ok (42 # 1)%Q
    else if decide (mac = probe_02) then Ok (7 # 1)%Q
    else Ok (88 # 1)%Q;
  env_parameter_value _ mac name :=
    if decide (mac = probe_03) then Err unreachable
    else if decide (name = "conductivity") then
      Ok (if decide (mac = probe_01) then 350 # 1 else 100 # 1)%Q
    else if decide (name = "light") then
      Ok (if decide (mac = probe_01) then 1200 # 1 else 900 # 1)%Q
    else if decide (name = "moisture") then
      Ok (if decide (mac = probe_01) then 30 # 1 else 55 # 1)%Q
    else
      Ok (if decide (mac = probe_01) then 43 # 2 else 18 # 1)%Q
|}.

Definition poll_args (file : string) : Namespace :=
  {| args_plants := file; args_scan := false; args_port := 9004 |}.
Definition scan_args (file : string) : Namespace :=
  {| args_plants := file; args_scan := true; args_port := 9004 |}.

(** The world when the startup (lines 43-74) is over and the first cycle
    is about to begin: [main], observed for no cycle at all. *)
Definition garden_started : world :=
  Eval vm_compute in exec (main garden 0 (poll_args "plants.json")) initial_world.

Definition basil_01 : probe := make_probe (probe_01, PyStr "basil").
Definition basil_02 : probe := make_probe (probe_02, PyStr "basil").
Definition mint_03 : probe := make_probe (probe_03, PyStr "mint").

(** ** Statements about a cycle *)

(** "After the cycle, the five gauges of the probe's plant name show the
    values the client returned to the probe in that cycle, and the probe's
    error counter is unchanged", said of the probe [p] that comes after
    the probes [pre] and before the probes [post] in a cycle that starts in
    world [w], when its five reads all succeed. *)
Definition readings_shown_after_cycle (E : environment)
    (pre : list probe) (p : probe) (post : list probe) (w : world) : Prop :=
  let sch := poll_schedule E (poller_mac (probe_poller p)) in
  let lbl := env_str E (probe_plant p) in
  let w1 := exec (for_each pre (poll_probe E)) w in
  let w' := exec (polling_cycle E (pre ++ p :: post)) w in
  ∀ vs, replies sch (clock w1) = (vs, None) →
    length vs = 5 ∧
    (∀ i g r a v, sch !! i = Some (g, r, a) → vs !! i = Some v →
                  a (clock w1 + i) = Ok v ∧ gauges w' !! (g, [lbl]) = Some v) ∧
    errors w' !! [probe_mac p; lbl] = errors w !! [probe_mac p; lbl].

(** ** The whole run, read off the environment *)

(** More readings of a trace: the ports the HTTP server was started on,
    the pollers made, the 'initialized' records, the sleeps, the lines
    printed. *)
Definition server_starts (t : list event) : list Z :=
  omap (λ e, match e with EvStartHttpServer port => Some port | _ => None end) t.
Definition pollers_made (t : list event) : list string :=
  omap (λ e, match e with EvNewPoller mac => Some mac | _ => None end) t.
Definition initialized (t : list event) : list (string * pyval) :=
  omap (λ e, match e with EvLogInitialized plant mac => Some (mac, plant) | _ => None end) t.
Definition sleeps (t : list event) : list Z :=
  omap (λ e, match e with EvSleep seconds => Some seconds | _ => None end) t.
Definition printed (t : list event) : list string :=
  omap (λ e, match e with EvPrint line => Some line | _ => None end) t.

(** The events of a probe's turn in a cycle are requests for a reading and
    error records, nothing else. *)
Definition is_poll_event (e : event) : bool :=
  match e with
  | EvRead _ BatteryLevel | EvRead _ (ParameterValue _) | EvLogError _ _ _ => true
  | _ => false
  end.

(** The events of one probe's turn in the start-up loop (lines 67-74) at
    clock [c], and of the whole loop. *)
Definition init_turn_events (E : environment) (p : probe) (c : nat) : list event :=
  EvRead (poller_mac (probe_poller p)) FirmwareVersion
  :: match env_firmware_version E c (poller_mac (probe_poller p)) with
     | Ok _ => []
     | Err e => [EvLogError (probe_mac p) (probe_plant p) e]
     end
  ++ [EvLogInitialized (probe_plant p) (probe_mac p)].

Fixpoint init_events (E : environment) (pollers : list probe) (c : nat) : list event :=
  match pollers with
  | [] => []
  | p :: rest => init_turn_events E p c ++ init_events E rest (S c)
  end.

(** The number of requests a cycle that begins at clock [c] sends. *)
Fixpoint cycle_requests (E : environment) (pollers : list probe) (c : nat) : nat :=
  match pollers with
  | [] => 0
  | p :: rest =>
      issued (turn_replies E p c)
      + cycle_requests E rest (c + issued (turn_replies E p c))
  end.

(** The events of [fuel] cycles, the first of which begins at clock [c]. *)
Fixpoint loop_events (E : environment) (pollers : list probe) (fuel c : nat) : list event :=
  match fuel with
  | 0 => []
  | S n =>
      cycle_events E pollers c
      ++ EvSleep 600 :: loop_events E pollers n (c + cycle_requests E pollers c)
  end.

(** The world of polling mode when the pollers are made and the start-up
    loop is about to begin. *)
Definition world_before_init (args : Namespace) (plants : pydict) (w : world) : world :=
  World (clock w) (errors w) (gauges w)
        (trace w ++ [EvBasicConfig; EvOpen (args_plants args);
                     EvStartHttpServer (args_port args);
                     EvLogStarted (args_port args)]
                 ++ (EvNewPoller <$> plants.*1)).

(** The garden before anything is planted: the registry file holds the
    empty JSON object. *)
Definition garden_unplanted : environment := {|
  env_open file :=
    if decide (file = "plants.json") then Ok "{}" else env_open garden file;
  env_json_load contents :=
    if decide (contents = "{}") then Ok (PyDict []) else env_json_load garden contents;
  env_str := env_str garden;
  env_start_http_server := env_start_http_server garden;
  env_miflora_scan := env_miflora_scan garden;
  env_firmware_version := env_firmware_version garden;
  env_battery_level := env_battery_level garden;
  env_parameter_value := env_parameter_value garden
|}.

(** The garden with probe 03 out of range for good: its battery request
    raises as well. *)
Definition garden_mint_out_of_range : environment := {|
  env_open := env_open garden;
  env_json_load := env_json_load garden;
  env_str := env_str garden;
  env_start_http_server := env_start_http_server garden;
  env_miflora_scan := env_miflora_scan garden;
  env_firmware_version := env_firmware_version garden;
  env_battery_level c mac :=
    if decide (mac = probe_03) then Err unreachable else env_battery_level garden c mac;
  env_parameter_value := env_parameter_value garden
|}.

(** Every metric child of [w] is still a child in [w']: a scrape does not
    lose a series. *)
Definition keeps_children (w w' : world) : Prop :=
  (∀ c, is_Some (gauges w !! c) → is_Some (gauges w' !! c)) ∧
  (∀ key, is_Some (errors w !! key) → is_Some (errors w' !! key)).

(** The garden with the Bluetooth adapter down (the scan raises), and with
    the port of the exporter taken (binding it raises). *)
Definition garden_without_bluetooth : environment := {|
  env_open := env_open garden;
  env_json_load := env_json_load garden;
  env_str := env_str garden;
  env_start_http_server := env_start_http_server garden;
  env_miflora_scan _ := Err (BluetoothBackendException "adapter hci0 is down");
  env_firmware_version := env_firmware_version garden;
  env_battery_level := env_battery_level garden;
  env_parameter_value := env_parameter_value garden
|}.

Definition garden_port_taken : environment := {|
  env_open := env_open garden;
  env_json_load := env_json_load garden;
  env_str := env_str garden;
  env_start_http_server _ := Err (OSError "Address already in use");
  env_miflora_scan := env_miflora_scan garden;
  env_firmware_version := env_firmware_version garden;
  env_battery_level := env_battery_level garden;
  env_parameter_value := env_parameter_value garden
|}.

(** * Verification *)

(** ** Rules of the monad *)

Section Rules.
Context {A B : Type}.
Implicit Types (m : M A) (f : A → M B).

Lemma bind_returned m f w a w' :
  m w = (Returned a, w') → (m ≫= f) w = f a w'.
Proof. intros H. unfold mbind, M_bind. by rewrite H. Qed.

Lemma bind_raised m f w e w' :
  m w = (Raised e, w') → (m ≫= f) w = (Raised e, w').
Proof. intros H. unfold mbind, M_bind. by rewrite H. Qed.

Lemma bind_running m f w w' :
  m w = (Running, w') → (m ≫= f) w = (Running, w').
Proof. intros H. unfold mbind, M_bind. by rewrite H. Qed.

End Rules.

Lemma seq_skip (m : M unit) w : (m ;; mret tt) w = m w.
Proof. unfold mbind, M_bind. by destruct (m w) as [[[]|e|] w']. Qed.

Lemma run_exec {A} (m : M A) w : m w = (run m w, exec m w).
Proof. unfold run, exec. by destruct (m w). Qed.

Lemma for_each_cons {X} (body : X → M unit) x l w :
  run (body x) w = Returned tt →
  for_each (x :: l) body w = for_each l body (exec (body x) w).
Proof.
  intros H. simpl. unfold mbind, M_bind.
  by rewrite (run_exec (body x) w), H.
Qed.

Lemma for_each_app {X} (body : X → M unit) l1 l2 w :
  (∀ x w0, run (body x) w0 = Returned tt) →
  for_each (l1 ++ l2) body w = for_each l2 body (exec (for_each l1 body) w).
Proof.
  intros Hbody. revert w. induction l1 as [|x l1 IH]; intros w; [done|].
  rewrite <- app_comm_cons, !for_each_cons by apply Hbody. rewrite IH.
  f_equal. unfold exec. by rewrite for_each_cons by apply Hbody.
Qed.

Lemma for_each_returns {X} (body : X → M unit) l w :
  (∀ x w0, run (body x) w0 = Returned tt) →
  run (for_each l body) w = Returned tt.
Proof.
  intros Hbody. revert w. induction l as [|x l IH]; intros w; [done|].
  unfold run. rewrite for_each_cons by apply Hbody. apply IH.
Qed.

(** ** One statement of the [try] block *)

Lemma insert_created (c : child) (v : Q) (m : gmap child Q) :
  <[c := v]> (created c m) = <[c := v]> m.
Proof.
  unfold created. destruct (m !! c); [done|]. apply insert_insert_eq.
Qed.

Lemma created_lookup_ne (c c' : child) (m : gmap child Q) :
  c ≠ c' → created c m !! c' = m !! c'.
Proof.
  intros Hne. unfold created. destruct (m !! c); [done|].
  by rewrite lookup_insert_ne.
Qed.

Lemma created_value (c c' : child) (m : gmap child Q) :
  default 0%Q (created c m !! c') = default 0%Q (m !! c').
Proof.
  unfold created. destruct (m !! c) eqn:Hc; [done|].
  destruct (decide (c = c')) as [<-|Hne].
  - by rewrite lookup_insert_eq, Hc.
  - by rewrite lookup_insert_ne.
Qed.

Lemma labels_set_ble g lv ev (answer : nat → result Q) w :
  labels_set g lv (ble ev answer) w =
  match answer (clock w) with
  | Ok v => (Returned tt,
             World (S (clock w)) (errors w) (<[(g, lv) := v]> (gauges w))
                   (trace w ++ [ev]))
  | Err e => (Raised e,
              World (S (clock w)) (errors w) (created (g, lv) (gauges w))
                    (trace w ++ [ev]))
  end.
Proof.
  unfold labels_set, ble, labels, gauge_set, log, get_clock, tick, lift.
  unfold mbind, M_bind, mret, M_ret, raise. simpl.
  destruct (answer (clock w)) as [v|e]; simpl; [|done].
  unfold set_gauges. simpl. by rewrite insert_created.
Qed.

(** ** The [try] block *)

Lemma run_schedule_spec lbl pmac (sch : schedule) :
  NoDup sch.*1.*1 →
  ∀ w vs oe, replies sch (clock w) = (vs, oe) →
  ∃ G,
    run_schedule lbl pmac sch w =
      (match oe with None => Returned tt | Some e => Raised e end,
       World (clock w + issued (vs, oe)) (errors w) G
             (trace w ++ read_events pmac (take (issued (vs, oe)) sch))) ∧
    (∀ i g r a v, sch !! i = Some (g, r, a) → vs !! i = Some v →
                  G !! (g, [lbl]) = Some v) ∧
    (∀ g lv, lv ≠ [lbl] ∨ g ∉ gauges_of (issued (vs, oe)) sch →
             G !! (g, lv) = gauges w !! (g, lv)) ∧
    (∀ g lv, lv ≠ [lbl] ∨ g ∉ gauges_of (length vs) sch →
             default 0%Q (G !! (g, lv)) = default 0%Q (gauges w !! (g, lv))).
Proof.
  induction sch as [|[[g r] a] sch IH]; intros Hnd w vs oe Hrep.
  - simpl in Hrep. injection Hrep as <- <-. exists (gauges w). simpl.
    unfold issued, read_events. simpl. rewrite Nat.add_0_r, app_nil_r.
    destruct w; simpl. repeat split; [|done..]. intros i ? ? ? ? Hi. done.
  - rewrite !fmap_cons in Hnd. apply NoDup_cons in Hnd as [Hg Hnd].
    simpl in Hrep. cbn [run_schedule]. unfold mbind at 1, M_bind at 1.
    rewrite labels_set_ble.
    destruct (a (clock w)) as [v|e] eqn:Ha.
    + destruct (replies sch (S (clock w))) as [vs' oe'] eqn:Hrep'.
      injection Hrep as <- <-.
      set (w1 := World (S (clock w)) (errors w) (<[(g, [lbl]) := v]> (gauges w))
                       (trace w ++ [EvRead pmac r])).
      destruct (IH Hnd w1 vs' oe' Hrep') as (G & Hrun & Hset & Hframe & Hval).
      exists G. rewrite Hrun. subst w1.
      cbn [clock errors gauges trace] in *.
      assert (issued (v :: vs', oe') = S (issued (vs', oe'))) as -> by done.
      rewrite !fmap_cons. cbn [take length].
      split; [|split; [|split]].
      * f_equal. f_equal; [lia|]. unfold read_events. rewrite fmap_cons.
        by rewrite <- app_assoc.
      * intros [|i] g' r' a' v' Hi Hv; simpl in Hi, Hv.
        -- injection Hi as -> -> ->. injection Hv as ->.
           rewrite Hframe; [by rewrite lookup_insert_eq|].
           right. intros Hin. apply Hg. by eapply subseteq_take.
        -- by eapply Hset.
      * intros g' lv Hout. rewrite Hframe.
        -- apply lookup_insert_ne. intros [= <- <-].
           destruct Hout as [Hout|Hout]; [done|]. apply Hout. by left.
        -- destruct Hout as [Hout|Hout]; [by left|right].
           intros Hin. apply Hout. by right.
      * intros g' lv Hout. rewrite Hval.
        -- f_equal. apply lookup_insert_ne. intros [= <- <-].
           destruct Hout as [Hout|Hout]; [done|]. apply Hout. by left.
        -- destruct Hout as [Hout|Hout]; [by left|right].
           intros Hin. apply Hout. by right.
    + injection Hrep as <- <-.
      exists (created (g, [lbl]) (gauges w)). unfold issued.
      cbn [fst snd length Nat.add]. rewrite !fmap_cons. cbn [take].
      split; [|split; [|split]].
      * rewrite take_0, Nat.add_1_r. done.
      * intros i ? ? ? ? _ Hv. done.
      * intros g' lv Hout. apply created_lookup_ne. intros [= <- <-].
        destruct Hout as [Hout|Hout]; [done|]. apply Hout. by left.
      * intros g' lv _. apply created_value.
Qed.

Lemma bind_ext {A B} (m : M A) (f g : A → M B) w :
  (∀ a w', f a w' = g a w') → (m ≫= f) w = (m ≫= g) w.
Proof.
  intros Hfg. unfold mbind, M_bind. destruct (m w) as [[a|e|] w']; [|done..].
  apply Hfg.
Qed.

(** The five statements of [poll_reads] are its table, run in order. *)
Lemma poll_reads_schedule E plant poller w :
  poll_reads E plant poller w =
  run_schedule (env_str E plant) (poller_mac poller)
               (poll_schedule E (poller_mac poller)) w.
Proof.
  unfold poll_reads, poll_schedule, run_schedule, battery_level, parameter_value.
  do 4 (apply bind_ext; intros _ ?). symmetry. apply seq_skip.
Qed.

Lemma poll_schedule_NoDup E pmac : NoDup (poll_schedule E pmac).*1.*1.
Proof. apply (bool_decide_unpack _). by vm_compute. Qed.

Lemma poll_schedule_length E pmac : length (poll_schedule E pmac) = 5.
Proof. done. Qed.

(** ** One probe of a cycle: the closed form of [poll_probe] *)

Lemma poll_probe_spec E mac plant poller w vs oe :
  let sch := poll_schedule E (poller_mac poller) in
  let lbl := env_str E plant in
  replies sch (clock w) = (vs, oe) →
  ∃ G,
    poll_probe E (mac, plant, poller) w =
      (Returned tt,
       World (clock w + issued (vs, oe))
             (match oe with
              | None => errors w
              | Some _ => <[[mac; lbl] := S (error_count w mac lbl)]> (errors w)
              end)
             G
             (trace w ++ read_events (poller_mac poller) (take (issued (vs, oe)) sch)
                     ++ match oe with
                        | None => []
                        | Some e => [EvLogError mac plant e]
                        end)) ∧
    (∀ i g r a v, sch !! i = Some (g, r, a) → vs !! i = Some v →
                  G !! (g, [lbl]) = Some v) ∧
    (∀ g lv, lv ≠ [lbl] ∨ g ∉ gauges_of (issued (vs, oe)) sch →
             G !! (g, lv) = gauges w !! (g, lv)) ∧
    (∀ g lv, lv ≠ [lbl] ∨ g ∉ gauges_of (length vs) sch →
             default 0%Q (G !! (g, lv)) = default 0%Q (gauges w !! (g, lv))).
Proof.
  intros sch lbl Hrep.
  destruct (run_schedule_spec lbl (poller_mac poller) sch
              (poll_schedule_NoDup E _) w vs oe Hrep)
    as (G & Hrun & Hset & Hframe & Hval).
  exists G. split; [|done].
  unfold poll_probe, try_except. rewrite poll_reads_schedule.
  fold sch lbl. rewrite Hrun. destruct oe as [e|].
  - unfold error_count_inc, log, mbind, M_bind, emit, set_errors.
    cbn [clock errors gauges trace]. by rewrite <- app_assoc.
  - by rewrite app_nil_r.
Qed.

Lemma poll_probe_returns E p w : run (poll_probe E p) w = Returned tt.
Proof.
  destruct p as [[mac plant] poller].
  destruct (replies (poll_schedule E (poller_mac poller)) (clock w))
    as [vs oe] eqn:Hrep.
  destruct (poll_probe_spec E mac plant poller w vs oe Hrep) as (G & Hrun & _).
  unfold run. by rewrite Hrun.
Qed.

(** A probe's turn touches no gauge child of another plant label, and no
    counter child but its own. *)
Lemma poll_probe_gauges_frame E p w g lv :
  lv ≠ [env_str E (probe_plant p)] →
  gauges (exec (poll_probe E p) w) !! (g, lv) = gauges w !! (g, lv).
Proof.
  destruct p as [[mac plant] poller]. intros Hlv.
  destruct (replies (poll_schedule E (poller_mac poller)) (clock w))
    as [vs oe] eqn:Hrep.
  destruct (poll_probe_spec E mac plant poller w vs oe Hrep)
    as (G & Hrun & _ & Hframe & _).
  unfold exec. rewrite Hrun. apply Hframe. by left.
Qed.

Lemma poll_probe_errors_frame E p w key :
  key ≠ [probe_mac p; env_str E (probe_plant p)] →
  errors (exec (poll_probe E p) w) !! key = errors w !! key.
Proof.
  destruct p as [[mac plant] poller]. intros Hkey.
  destruct (replies (poll_schedule E (poller_mac poller)) (clock w))
    as [vs oe] eqn:Hrep.
  destruct (poll_probe_spec E mac plant poller w vs oe Hrep) as (G & Hrun & _).
  unfold exec. rewrite Hrun. cbn [snd errors].
  destruct oe; [|done]. by rewrite lookup_insert_ne.
Qed.

(** ** What [replies] says about the client *)

Lemma replies_values sch c vs oe (i : nat) v :
  replies sch c = (vs, oe) → vs !! i = Some v →
  ∃ g r a, sch !! i = Some (g, r, a) ∧ a (c + i) = Ok v.
Proof.
  revert c vs i. induction sch as [|[[g r] a] sch IH]; intros c vs i Hrep Hv.
  - simpl in Hrep. by injection Hrep as <- <-.
  - simpl in Hrep. destruct (a c) as [v0|e] eqn:Ha.
    + destruct (replies sch (S c)) as [vs' oe'] eqn:Hrep'.
      injection Hrep as <- <-. destruct i as [|i]; simpl in Hv.
      * injection Hv as ->. exists g, r, a. by rewrite Nat.add_0_r.
      * destruct (IH _ _ _ Hrep' Hv) as (g' & r' & a' & Hi & Hok).
        exists g', r', a'. split; [done|]. by rewrite Nat.add_succ_r.
    + by injection Hrep as <- <-.
Qed.

Lemma replies_failure sch c vs err :
  replies sch c = (vs, Some err) →
  ∃ g r a, sch !! length vs = Some (g, r, a) ∧ a (c + length vs) = Err err.
Proof.
  revert c vs. induction sch as [|[[g r] a] sch IH]; intros c vs Hrep.
  - simpl in Hrep. by injection Hrep.
  - simpl in Hrep. destruct (a c) as [v0|e] eqn:Ha.
    + destruct (replies sch (S c)) as [vs' oe'] eqn:Hrep'.
      injection Hrep as <- ->.
      destruct (IH _ _ Hrep') as (g' & r' & a' & Hi & Herr).
      exists g', r', a'. split; [done|]. simpl. by rewrite Nat.add_succ_r.
    + injection Hrep as <- <-. exists g, r, a. by rewrite Nat.add_0_r.
Qed.

Lemma replies_success sch c vs :
  replies sch c = (vs, None) → length vs = length sch.
Proof.
  revert c vs. induction sch as [|[[g r] a] sch IH]; intros c vs Hrep.
  - simpl in Hrep. by injection Hrep as <-.
  - simpl in Hrep. destruct (a c) as [v0|e] eqn:Ha; [|done].
    destruct (replies sch (S c)) as [vs' oe'] eqn:Hrep'.
    injection Hrep as <- ->. simpl. f_equal. by eapply IH.
Qed.

Lemma replies_issued_pos x sch c : 1 ≤ issued (replies (x :: sch) c).
Proof.
  destruct x as [[g r] a]. simpl.
  destruct (a c); [|unfold issued; simpl; lia].
  destruct (replies sch (S c)). unfold issued. simpl. lia.
Qed.

Lemma later_gauge_not_set (sch : schedule) (n i : nat) g r a :
  NoDup sch.*1.*1 → sch !! i = Some (g, r, a) → n ≤ i →
  g ∉ gauges_of n sch.
Proof.
  intros Hnd Hi Hle [j [Hj Hlt]]%elem_of_take.
  assert (sch.*1.*1 !! i = Some g) as Hi'.
  { by rewrite !list_lookup_fmap, Hi. }
  pose proof (NoDup_lookup _ _ _ _ Hnd Hi' Hj). lia.
Qed.

(** ** A read that raises (lines 78-86) *)

(** C1.  When one of the five reads of a probe raises, which is the read
    number [length vs] after the reads with values [vs]: the exception is
    caught; the requests up to the raising one were sent, the ones after it
    were not, and one error record follows; the error counter of
    (identifier, plant) goes up by exactly 1 and no other counter child
    changes; every gauge set before the raising read holds the value read;
    the gauges of the raising read and of the reads after it show the
    value they showed before, and the ones after it are not touched at
    all (of the raising read's gauge, [labels] only creates the child, at 0,
    when it did not exist). *)
Theorem poll_probe_read_failure E mac plant poller w vs err :
  let sch := poll_schedule E (poller_mac poller) in
  let lbl := env_str E plant in
  let w' := exec (poll_probe E (mac, plant, poller)) w in
  replies sch (clock w) = (vs, Some err) →
  run (poll_probe E (mac, plant, poller)) w = Returned tt ∧
  (∃ g r a, sch !! length vs = Some (g, r, a) ∧
            a (clock w + length vs) = Err err) ∧
  trace w' = trace w ++ read_events (poller_mac poller) (take (S (length vs)) sch)
                     ++ [EvLogError mac plant err] ∧
  clock w' = clock w + S (length vs) ∧
  error_count w' mac lbl = S (error_count w mac lbl) ∧
  (∀ key, key ≠ [mac; lbl] → errors w' !! key = errors w !! key) ∧
  (∀ i g r a v, sch !! i = Some (g, r, a) → vs !! i = Some v →
                a (clock w + i) = Ok v ∧ gauges w' !! (g, [lbl]) = Some v) ∧
  (∀ i g r a lv, sch !! i = Some (g, r, a) → length vs ≤ i →
                 gauge_value w' g lv = gauge_value w g lv) ∧
  (∀ i g r a lv, sch !! i = Some (g, r, a) → length vs < i →
                 gauges w' !! (g, lv) = gauges w !! (g, lv)).
Proof.
  intros sch lbl w' Hrep.
  destruct (poll_probe_spec E mac plant poller w vs (Some err) Hrep)
    as (G & Hrun & Hset & Hframe & Hval).
  pose proof (poll_schedule_NoDup E (poller_mac poller)) as Hnd.
  assert (issued (vs, Some err) = S (length vs)) as Hiss.
  { unfold issued. simpl. lia. }
  rewrite Hiss in Hrun, Hframe.
  subst w'. unfold run, exec. rewrite Hrun. cbn [fst snd clock errors gauges trace].
  split; [done|]. split; [by apply replies_failure|]. split; [done|].
  split; [done|]. split.
  { unfold error_count at 1. cbn [errors]. by rewrite lookup_insert_eq. }
  split; [intros key Hkey; by rewrite lookup_insert_ne|].
  split; [|split].
  - intros i g r a v Hi Hv. split; [|by eapply Hset].
    destruct (replies_values _ _ _ _ _ _ Hrep Hv) as (g' & r' & a' & Hi' & Hok).
    fold sch in Hi'. rewrite Hi in Hi'. by injection Hi' as <- <- <-.
  - intros i g r a lv Hi Hle. unfold gauge_value. cbn [gauges].
    apply Hval. right. by eapply later_gauge_not_set.
  - intros i g r a lv Hi Hlt. apply Hframe. right.
    by eapply later_gauge_not_set.
Qed.

(** ** A whole cycle (lines 77-87) *)

Lemma poll_loop_cons E p l w :
  exec (for_each (p :: l) (poll_probe E)) w =
  exec (for_each l (poll_probe E)) (exec (poll_probe E p) w).
Proof. unfold exec at 1. by rewrite for_each_cons by apply poll_probe_returns. Qed.

Lemma poll_loop_app E l1 l2 w :
  exec (for_each (l1 ++ l2) (poll_probe E)) w =
  exec (for_each l2 (poll_probe E)) (exec (for_each l1 (poll_probe E)) w).
Proof.
  unfold exec at 1. by rewrite for_each_app by (intros; apply poll_probe_returns).
Qed.

Lemma polling_cycle_spec E pollers w :
  polling_cycle E pollers w =
  (Returned tt, emit (EvSleep 600) (exec (for_each pollers (poll_probe E)) w)).
Proof.
  unfold polling_cycle, mbind, M_bind.
  rewrite (run_exec (for_each pollers (poll_probe E)) w).
  by rewrite for_each_returns by (intros; apply poll_probe_returns).
Qed.

Lemma poll_loop_gauges_frame E l w g lbl :
  (∀ p, p ∈ l → env_str E (probe_plant p) ≠ lbl) →
  gauges (exec (for_each l (poll_probe E)) w) !! (g, [lbl]) = gauges w !! (g, [lbl]).
Proof.
  revert w. induction l as [|p l IH]; intros w Hl; [done|].
  rewrite poll_loop_cons, IH by (intros; apply Hl; by right).
  apply poll_probe_gauges_frame. intros [= Heq]. eapply Hl; [by left|done].
Qed.

Lemma poll_loop_errors_frame E l w mac lbl :
  (∀ p, p ∈ l → probe_mac p ≠ mac) →
  errors (exec (for_each l (poll_probe E)) w) !! [mac; lbl] = errors w !! [mac; lbl].
Proof.
  revert w. induction l as [|p l IH]; intros w Hl; [done|].
  rewrite poll_loop_cons, IH by (intros; apply Hl; by right).
  apply poll_probe_errors_frame. intros [= Heq _]. eapply Hl; [by left|done].
Qed.

(** The last probe of a cycle with a given plant label decides what the
    gauges of that label show after the cycle. *)
Lemma last_writer_wins E pre mac plant poller post w vs :
  let sch := poll_schedule E (poller_mac poller) in
  let lbl := env_str E plant in
  let w1 := exec (for_each pre (poll_probe E)) w in
  let w' := exec (polling_cycle E (pre ++ (mac, plant, poller) :: post)) w in
  replies sch (clock w1) = (vs, None) →
  (∀ p, p ∈ post → env_str E (probe_plant p) ≠ lbl) →
  ∀ i g r a v, sch !! i = Some (g, r, a) → vs !! i = Some v →
               gauges w' !! (g, [lbl]) = Some v.
Proof.
  intros sch lbl w1 w' Hrep Hpost i g r a v Hi Hv. subst w'.
  unfold exec at 1. rewrite polling_cycle_spec. cbn [snd emit gauges].
  rewrite poll_loop_app, poll_loop_cons. fold w1.
  rewrite poll_loop_gauges_frame by done.
  destruct (poll_probe_spec E mac plant poller w1 vs None Hrep)
    as (G & Hrun & Hset & _).
  unfold exec. rewrite Hrun. cbn [snd gauges]. by eapply Hset.
Qed.

(** ** Reads that all succeed (lines 77-83) *)

(** C2, as stated, fails for the first of two probes of one plant name:
    the five reads of probe 01 succeed (battery 42), and after the cycle
    the battery gauge of "basil" shows 7, which probe 02 returned. *)
Lemma earlier_twin_readings_overwritten :
  ¬ readings_shown_after_cycle garden [] basil_01 [basil_02; mint_03]
      garden_started.
Proof.
  intros H.
  destruct (H [42 # 1; 350 # 1; 1200 # 1; 30 # 1; 43 # 2]%Q eq_refl)
    as (_ & Hshown & _).
  destruct (Hshown 0 battery_level_metric BatteryLevel
              (λ c, env_battery_level garden c probe_01) (42 # 1)%Q
              eq_refl eq_refl) as [_ Hbattery].
  vm_compute in Hbattery. discriminate Hbattery.
Qed.

(** C2, amended.  For every probe whose five reads all succeed in a cycle
    and whose plant name is the name of no probe after it in registry
    order: after the cycle the five gauges of its plant name hold exactly
    the values the client returned to it, and (the identifiers of a
    registry being distinct) its error counter child is unchanged. *)
Theorem successful_readings_shown E pre p post w :
  (∀ q, q ∈ post → env_str E (probe_plant q) ≠ env_str E (probe_plant p)) →
  (∀ q, q ∈ pre ++ post → probe_mac q ≠ probe_mac p) →
  readings_shown_after_cycle E pre p post w.
Proof.
  destruct p as [[mac plant] poller]. intros Hpost Hmacs vs Hrep.
  unfold probe_poller, probe_plant, probe_mac in *. cbn [fst snd] in *.
  split; [by rewrite (replies_success _ _ _ Hrep)|]. split.
  - intros i g r a v Hi Hv. split; [|by eapply last_writer_wins].
    destruct (replies_values _ _ _ _ _ _ Hrep Hv) as (g' & r' & a' & Hi' & Hok).
    rewrite Hi in Hi'. by injection Hi' as <- <- <-.
  - unfold exec at 1. rewrite polling_cycle_spec. cbn [snd emit errors].
    rewrite poll_loop_app, poll_loop_cons.
    rewrite poll_loop_errors_frame
      by (intros q Hq; apply Hmacs, elem_of_app; by right).
    destruct (poll_probe_spec E mac plant poller _ vs None Hrep) as (G & Hrun & _).
    unfold exec at 1. rewrite Hrun. cbn [snd errors].
    apply poll_loop_errors_frame. intros q Hq. apply Hmacs, elem_of_app. by left.
Qed.

Lemma successful_readings_shown_witness :
  gauges (exec (polling_cycle garden [basil_01; basil_02; mint_03]) garden_started)
    !! (battery_level_metric, ["basil"]) = Some (7 # 1)%Q.
Proof.
  assert (readings_shown_after_cycle garden [basil_01] basil_02 [mint_03]
            garden_started) as H.
  { apply successful_readings_shown.
    - intros q ->%list_elem_of_singleton. discriminate.
    - intros q [->%list_elem_of_singleton | ->%list_elem_of_singleton]%elem_of_app;
        discriminate. }
  destruct (H [7 # 1; 100 # 1; 900 # 1; 55 # 1; 18 # 1]%Q eq_refl)
    as (_ & Hshown & _).
  exact (proj2 (Hshown 0 battery_level_metric BatteryLevel
                  (λ c, env_battery_level garden c probe_02) (7 # 1)%Q
                  eq_refl eq_refl)).
Defined.

(** ** Two probes of one plant name *)

Lemma init_probe_success E mac plant poller w version :
  env_firmware_version E (clock w) (poller_mac poller) = Ok version →
  init_probe E (mac, plant, poller) w =
  (Returned tt,
   World (S (clock w)) (errors w)
         (<[(firmware_version_metric, [env_str E plant; version]) := 1%Q]> (gauges w))
         (trace w ++ [EvRead (poller_mac poller) FirmwareVersion;
                      EvLogInitialized plant mac])).
Proof.
  intros Hfw. unfold init_probe, try_except, firmware_version, ble.
  unfold labels, gauge_set, log, get_clock, tick, lift.
  unfold mbind, M_bind, mret, M_ret, raise. cbn. rewrite Hfw. cbn.
  unfold set_gauges, emit. cbn. by rewrite insert_created, <- app_assoc.
Qed.

Lemma init_probe_failure E mac plant poller w err :
  env_firmware_version E (clock w) (poller_mac poller) = Err err →
  init_probe E (mac, plant, poller) w =
  (Returned tt,
   World (S (clock w))
         (<[[mac; env_str E plant] := S (error_count w mac (env_str E plant))]>
            (errors w))
         (gauges w)
         (trace w ++ [EvRead (poller_mac poller) FirmwareVersion;
                      EvLogError mac plant err;
                      EvLogInitialized plant mac])).
Proof.
  intros Hfw. unfold init_probe, try_except, firmware_version, ble.
  unfold error_count_inc, log, get_clock, tick, lift.
  unfold mbind, M_bind, mret, M_ret, raise. cbn. rewrite Hfw. cbn.
  unfold emit. cbn. by rewrite <- !app_assoc.
Qed.

(** C10.  Two registry entries [p1], [p2] with the same plant name write
    the same gauge children.  In a cycle in which the five reads of both
    succeed, [p1] before [p2], and no probe after [p2] has that plant name:
    each of the five gauges of the name holds the value of [p1] after the
    turn of [p1], and the value of [p2] when the cycle ends.  At start-up
    the firmware-version child either probe sets to 1 is the one of the
    shared name and of the version read, whichever probe it is read
    from. *)
Theorem shared_plant_later_probe_wins
    E pre mid post mac1 plant1 poller1 mac2 plant2 poller2 w vs1 vs2 :
  let p1 : probe := (mac1, plant1, poller1) in
  let p2 : probe := (mac2, plant2, poller2) in
  let sch1 := poll_schedule E (poller_mac poller1) in
  let sch2 := poll_schedule E (poller_mac poller2) in
  let lbl := env_str E plant1 in
  let w1 := exec (for_each pre (poll_probe E)) w in
  let w1' := exec (poll_probe E p1) w1 in
  let w2 := exec (for_each mid (poll_probe E)) w1' in
  let w' := exec (polling_cycle E (pre ++ p1 :: mid ++ p2 :: post)) w in
  env_str E plant2 = lbl →
  (∀ q, q ∈ post → env_str E (probe_plant q) ≠ lbl) →
  replies sch1 (clock w1) = (vs1, None) →
  replies sch2 (clock w2) = (vs2, None) →
  (∀ i g r a1 a2 v1 v2,
     sch1 !! i = Some (g, r, a1) → sch2 !! i = Some (g, r, a2) →
     vs1 !! i = Some v1 → vs2 !! i = Some v2 →
     gauges w1' !! (g, [lbl]) = Some v1 ∧ gauges w' !! (g, [lbl]) = Some v2) ∧
  (∀ w0 version,
     env_firmware_version E (clock w0) (poller_mac poller1) = Ok version →
     gauges (exec (init_probe E p1) w0)
       !! (firmware_version_metric, [lbl; version]) = Some 1%Q) ∧
  (∀ w0 version,
     env_firmware_version E (clock w0) (poller_mac poller2) = Ok version →
     gauges (exec (init_probe E p2) w0)
       !! (firmware_version_metric, [lbl; version]) = Some 1%Q).
Proof.
  intros p1 p2 sch1 sch2 lbl w1 w1' w2 w' Hlbl Hpost Hrep1 Hrep2.
  split; [|split].
  - intros i g r a1 a2 v1 v2 Hi1 Hi2 Hv1 Hv2. split.
    + destruct (poll_probe_spec E mac1 plant1 poller1 w1 vs1 None Hrep1)
        as (G & Hrun & Hset & _).
      subst w1'. unfold exec at 1. fold p1 in Hrun. rewrite Hrun.
      cbn [snd gauges]. by eapply Hset.
    + subst w'. rewrite app_comm_cons, app_assoc. rewrite <- Hlbl.
      eapply last_writer_wins; [|by rewrite Hlbl|done..].
      by rewrite poll_loop_app, poll_loop_cons.
  - intros w0 version Hfw. unfold exec, p1.
    rewrite (init_probe_success _ _ _ _ _ _ Hfw). cbn [snd gauges].
    apply lookup_insert_eq.
  - intros w0 version Hfw. unfold exec, p2.
    rewrite (init_probe_success _ _ _ _ _ _ Hfw). cbn [snd gauges].
    rewrite Hlbl. apply lookup_insert_eq.
Qed.

(** ** The trace of a cycle *)

Lemma poll_probe_trace E p w :
  poll_probe E p w =
  (Returned tt,
   World (clock w + issued (turn_replies E p (clock w)))
         (errors (exec (poll_probe E p) w))
         (gauges (exec (poll_probe E p) w))
         (trace w ++ turn_events E p (clock w))).
Proof.
  destruct p as [[mac plant] poller].
  unfold turn_events, turn_replies, probe_poller, probe_mac, probe_plant.
  cbn [fst snd].
  destruct (replies (poll_schedule E (poller_mac poller)) (clock w))
    as [vs oe] eqn:Hrep.
  destruct (poll_probe_spec E mac plant poller w vs oe Hrep) as (G & Hrun & _).
  unfold exec. rewrite Hrun. cbn [snd errors gauges]. done.
Qed.

Lemma poll_probe_counter E p w key :
  default 0 (errors (exec (poll_probe E p) w) !! key) =
  default 0 (errors w !! key) + times_logged E key (turn_events E p (clock w)).
Proof.
  destruct p as [[mac plant] poller].
  unfold times_logged, turn_events, turn_replies, probe_poller, probe_mac, probe_plant.
  cbn [fst snd].
  destruct (replies (poll_schedule E (poller_mac poller)) (clock w))
    as [vs oe] eqn:Hrep.
  destruct (poll_probe_spec E mac plant poller w vs oe Hrep) as (G & Hrun & _).
  unfold exec. rewrite Hrun. cbn [snd errors]. unfold logged_errors.
  rewrite omap_app.
  assert (∀ sch : schedule,
            omap (λ e, match e with
                       | EvLogError mac plant _ => Some [mac; env_str E plant]
                       | _ => None
                       end) (read_events (poller_mac poller) sch) = []) as ->.
  { induction sch as [|[[? ?] ?] sch IH]; [done|]. apply IH. }
  destruct oe as [e|]; cbn [app omap]; [|simpl; lia].
  unfold error_count. cbn. case_decide as Hkey.
  - subst key. rewrite lookup_insert_eq. simpl. lia.
  - rewrite lookup_insert_ne by done. simpl. lia.
Qed.

Lemma poll_loop_trace E pollers w :
  trace (exec (for_each pollers (poll_probe E)) w) =
  trace w ++ cycle_events E pollers (clock w).
Proof.
  revert w. induction pollers as [|p l IH]; intros w.
  - simpl. by rewrite app_nil_r.
  - rewrite poll_loop_cons, IH. unfold exec at 1 2. rewrite poll_probe_trace.
    cbn [snd trace clock cycle_events]. by rewrite app_assoc.
Qed.

Lemma times_logged_app E key t1 t2 :
  times_logged E key (t1 ++ t2) = times_logged E key t1 + times_logged E key t2.
Proof.
  unfold times_logged, logged_errors. by rewrite omap_app, filter_app, length_app.
Qed.

Lemma poll_loop_counter E pollers w key :
  default 0 (errors (exec (for_each pollers (poll_probe E)) w) !! key) =
  default 0 (errors w !! key) + times_logged E key (cycle_events E pollers (clock w)).
Proof.
  revert w. induction pollers as [|p l IH]; intros w.
  - unfold times_logged. cbn. lia.
  - rewrite poll_loop_cons, IH, poll_probe_counter. unfold exec at 1.
    rewrite poll_probe_trace. cbn [snd clock cycle_events].
    rewrite times_logged_app. lia.
Qed.

Lemma polled_turn_events E p c :
  polled (turn_events E p c) = [poller_mac (probe_poller p)].
Proof.
  unfold turn_events, turn_replies, polled. rewrite omap_app.
  set (pmac := poller_mac (probe_poller p)).
  pose proof (replies_issued_pos _ _ c : 1 ≤ issued (replies (poll_schedule E pmac) c))
    as Hpos.
  destruct (replies (poll_schedule E pmac) c) as [vs oe] eqn:Hrep.
  destruct (issued (vs, oe)) as [|[|[|[|[|n]]]]] eqn:Hn; [lia|..];
    cbn [snd]; unfold poll_schedule; cbn [take]; rewrite ?take_nil;
    destruct oe; reflexivity.
Qed.

Lemma polled_cycle_events E pollers c :
  polled (cycle_events E pollers c) = (poller_mac ∘ probe_poller) <$> pollers.
Proof.
  revert c. induction pollers as [|p l IH]; intros c; [done|].
  cbn [cycle_events]. pose proof (polled_turn_events E p c) as Hp.
  unfold polled in *. by rewrite omap_app, IH, Hp.
Qed.

Lemma no_sleep_in_cycle_events E pollers c :
  Forall (λ e, is_sleep e = false) (cycle_events E pollers c).
Proof.
  revert c. induction pollers as [|p l IH]; intros c; [done|].
  cbn [cycle_events]. apply Forall_app. split; [|apply IH].
  unfold turn_events. apply Forall_app. split.
  - unfold read_events. apply Forall_fmap, Forall_true. done.
  - by destruct (turn_replies E p c).2; repeat constructor.
Qed.

(** ** Failures stay inside the cycle (lines 76-87) *)

(** C5.  A polling cycle never raises: whatever a probe's reads raise is
    caught in that probe's turn.  Its trace is the turns of all probes in
    registry order, each probe attempted (its battery request sent)
    exactly once whatever happened to the probes before it, followed by the
    sleep of 600 seconds, with no sleep before.  A turn has one error
    record if a read raised and none otherwise, and every counter child
    goes up by the number of error records written for it. *)
Theorem polling_cycle_isolates_probes E pollers w :
  let w' := exec (polling_cycle E pollers) w in
  let evs := cycle_events E pollers (clock w) in
  run (polling_cycle E pollers) w = Returned tt ∧
  (∀ p w0, run (poll_probe E p) w0 = Returned tt) ∧
  trace w' = trace w ++ evs ++ [EvSleep 600] ∧
  polled evs = (poller_mac ∘ probe_poller) <$> pollers ∧
  Forall (λ e, is_sleep e = false) evs ∧
  (∀ p c, logged_errors E (turn_events E p c) =
          match (turn_replies E p c).2 with
          | Some _ => [[probe_mac p; env_str E (probe_plant p)]]
          | None => []
          end) ∧
  (∀ key, default 0 (errors w' !! key) =
          default 0 (errors w !! key) + times_logged E key evs).
Proof.
  intros w' evs. subst w' evs. unfold run, exec. rewrite polling_cycle_spec.
  cbn [fst snd emit trace errors].
  split; [done|]. split; [intros; apply poll_probe_returns|].
  split; [by rewrite poll_loop_trace, app_assoc|].
  split; [apply polled_cycle_events|].
  split; [apply no_sleep_in_cycle_events|].
  split; [|intros; apply poll_loop_counter].
  intros p c. unfold turn_events, logged_errors. rewrite omap_app.
  assert (∀ sch : schedule,
            omap (λ e, match e with
                       | EvLogError mac plant _ => Some [mac; env_str E plant]
                       | _ => None
                       end) (read_events (poller_mac (probe_poller p)) sch) = []) as ->.
  { induction sch as [|[[? ?] ?] sch IH]; [done|]. apply IH. }
  by destruct (turn_replies E p c).2.
Qed.

(** ** Start-up (lines 43-74) *)

Lemma load_plants_ok E file contents d w :
  env_open E file = Ok contents →
  env_json_load E contents = Ok (PyDict d) →
  load_plants E file w = (Returned d, emit (EvOpen file) w).
Proof.
  intros Hopen Hjson. unfold load_plants, py_open_read, json_load, log, lift.
  unfold mbind, M_bind. cbn. rewrite Hopen. cbn. by rewrite Hjson.
Qed.

Lemma load_plants_config_error E file e w :
  ConfigError E file e →
  load_plants E file w = (Raised e, emit (EvOpen file) w).
Proof.
  unfold load_plants, py_open_read, json_load, log, lift, mbind, M_bind.
  intros [e' Hopen | contents e' Hopen Hjson | contents v Hopen Hjson Hv]; cbn.
  - by rewrite Hopen.
  - rewrite Hopen. cbn. by rewrite Hjson.
  - rewrite Hopen. cbn. rewrite Hjson. cbn.
    destruct v; try done. by destruct (Hv d).
Qed.

Lemma main_config_error E fuel args e w :
  ConfigError E (args_plants args) e →
  main E fuel args w =
  (Raised e, emit (EvOpen (args_plants args)) (emit EvBasicConfig w)).
Proof.
  intros He. unfold main, log, mbind at 1 2, M_bind at 1 2. cbn.
  by rewrite (load_plants_config_error _ _ _ _ He).
Qed.

Lemma start_http_server_ok E port w :
  env_start_http_server E port = Ok tt →
  start_http_server E port w = (Returned tt, emit (EvStartHttpServer port) w).
Proof.
  intros Hhttp. unfold start_http_server, log, lift, mbind, M_bind.
  by rewrite Hhttp.
Qed.

Lemma make_pollers_spec plants w :
  make_pollers plants w =
  (Returned (make_probe <$> plants),
   World (clock w) (errors w) (gauges w) (trace w ++ (EvNewPoller <$> plants.*1))).
Proof.
  revert w. induction plants as [|[mac plant] plants IH]; intros w.
  - cbn. rewrite app_nil_r. by destruct w.
  - cbn [make_pollers]. unfold new_MiFloraPoller, log, mbind, M_bind. cbn.
    rewrite IH. cbn. by rewrite <- app_assoc.
Qed.

Lemma init_probe_events E p w :
  ∃ evs,
    init_probe E p w =
      (Returned tt,
       World (S (clock w)) (errors (exec (init_probe E p) w))
             (gauges (exec (init_probe E p) w)) (trace w ++ evs)) ∧
    polled evs = [] ∧
    asked_firmware evs = [poller_mac (probe_poller p)].
Proof.
  destruct p as [[mac plant] poller]. unfold probe_poller. cbn [snd].
  destruct (env_firmware_version E (clock w) (poller_mac poller))
    as [version|err] eqn:Hfw.
  - eexists. unfold exec. rewrite (init_probe_success _ _ _ _ _ _ Hfw).
    cbn [snd errors gauges]. done.
  - eexists. unfold exec. rewrite (init_probe_failure _ _ _ _ _ _ Hfw).
    cbn [snd errors gauges]. done.
Qed.

Lemma init_probe_returns E p w : run (init_probe E p) w = Returned tt.
Proof.
  destruct (init_probe_events E p w) as (evs & Hrun & _).
  unfold run. by rewrite Hrun.
Qed.

Lemma polled_app t1 t2 : polled (t1 ++ t2) = polled t1 ++ polled t2.
Proof. apply omap_app. Qed.

Lemma asked_firmware_app t1 t2 :
  asked_firmware (t1 ++ t2) = asked_firmware t1 ++ asked_firmware t2.
Proof. apply omap_app. Qed.

Lemma init_loop_spec E pollers w :
  let w' := exec (for_each pollers (init_probe E)) w in
  run (for_each pollers (init_probe E)) w = Returned tt ∧
  polled (trace w') = polled (trace w) ∧
  asked_firmware (trace w') =
    asked_firmware (trace w) ++ ((poller_mac ∘ probe_poller) <$> pollers).
Proof.
  cbn zeta. split; [apply for_each_returns; intros; apply init_probe_returns|].
  revert w. induction pollers as [|p l IH]; intros w.
  - cbn. by rewrite app_nil_r.
  - assert (exec (for_each (p :: l) (init_probe E)) w =
            exec (for_each l (init_probe E)) (exec (init_probe E p) w)) as ->.
    { unfold exec at 1. by rewrite for_each_cons by apply init_probe_returns. }
    destruct (IH (exec (init_probe E p) w)) as [-> ->].
    destruct (init_probe_events E p w) as (evs & Hrun & Hpolled & Hasked).
    unfold exec. rewrite Hrun. cbn [snd trace].
    rewrite polled_app, asked_firmware_app, Hpolled, Hasked, app_nil_r.
    by rewrite <- app_assoc.
Qed.

Lemma asked_firmware_cycle_events E pollers c :
  asked_firmware (cycle_events E pollers c) = [].
Proof.
  revert c. induction pollers as [|p l IH]; intros c; [done|].
  cbn [cycle_events]. rewrite asked_firmware_app, IH, app_nil_r.
  unfold turn_events. rewrite asked_firmware_app.
  destruct (issued (turn_replies E p c)) as [|[|[|[|[|n]]]]];
    unfold poll_schedule; cbn [take]; rewrite ?take_nil;
    destruct (turn_replies E p c).2; reflexivity.
Qed.

(** The loop of lines 76-87 never ends, and every iteration attempts every
    probe it was started with. *)
Lemma poll_forever E pollers fuel w :
  let w' := exec (while_true fuel (polling_cycle E pollers)) w in
  run (while_true fuel (polling_cycle E pollers)) w = Running ∧
  polled (trace w') =
    polled (trace w)
    ++ concat (replicate fuel ((poller_mac ∘ probe_poller) <$> pollers)) ∧
  asked_firmware (trace w') = asked_firmware (trace w).
Proof.
  cbn zeta. revert w. induction fuel as [|fuel IH]; intros w.
  - cbn. by rewrite app_nil_r.
  - unfold run, exec. cbn [while_true]. unfold mbind, M_bind.
    rewrite polling_cycle_spec.
    set (w1 := emit (EvSleep 600) (exec (for_each pollers (poll_probe E)) w)).
    destruct (IH w1) as (Hrun & Hpolled & Hasked).
    unfold run, exec in Hrun, Hpolled, Hasked.
    split; [done|]. rewrite Hpolled, Hasked. subst w1. cbn [emit trace].
    rewrite poll_loop_trace, !polled_app, !asked_firmware_app.
    rewrite polled_cycle_events, asked_firmware_cycle_events.
    cbn [replicate concat]. cbn. rewrite !app_nil_r. by rewrite <- app_assoc.
Qed.

Lemma macs_of_made_probes (plants : pydict) :
  (poller_mac ∘ probe_poller) <$> (make_probe <$> plants) = plants.*1.
Proof. rewrite <- list_fmap_compose. by apply list_fmap_ext. Qed.

(** The polling mode of [main], when the registry loads and the port
    binds. *)
Lemma main_polling E fuel args contents plants w :
  args_scan args = false →
  env_open E (args_plants args) = Ok contents →
  env_json_load E contents = Ok (PyDict plants) →
  env_start_http_server E (args_port args) = Ok tt →
  let pollers := make_probe <$> plants in
  let w0 :=
    World (clock w) (errors w) (gauges w)
          (trace w ++ [EvBasicConfig; EvOpen (args_plants args);
                       EvStartHttpServer (args_port args);
                       EvLogStarted (args_port args)]
                   ++ (EvNewPoller <$> plants.*1)) in
  main E fuel args w =
  while_true fuel (polling_cycle E pollers)
             (exec (for_each pollers (init_probe E)) w0).
Proof.
  intros Hscan Hopen Hjson Hhttp pollers w0. unfold main.
  erewrite bind_returned by reflexivity. cbv beta.
  erewrite bind_returned by (by eapply load_plants_ok). cbv beta.
  rewrite Hscan.
  erewrite bind_returned by (by apply start_http_server_ok). cbv beta.
  erewrite bind_returned by reflexivity. cbv beta.
  erewrite bind_returned by apply make_pollers_spec. cbv beta.
  fold pollers. unfold emit. cbn [clock errors gauges trace].
  match goal with
  | |- _ ?x = _ =>
      replace x with w0 by (subst w0; f_equal; by rewrite <- !app_assoc)
  end.
  unfold mbind, M_bind.
  rewrite (run_exec (for_each pollers (init_probe E)) w0).
  by rewrite (proj1 (init_loop_spec E pollers w0)).
Qed.

Lemma polled_new_pollers (macs : list string) : polled (EvNewPoller <$> macs) = [].
Proof. induction macs as [|mac macs IH]; [done|]. apply IH. Qed.

Lemma asked_firmware_new_pollers (macs : list string) :
  asked_firmware (EvNewPoller <$> macs) = [].
Proof. induction macs as [|mac macs IH]; [done|]. apply IH. Qed.

(** C7.  In polling mode (the registry loads, the port binds): a firmware
    read that raises is caught, adds 1 to the error counter of
    (identifier, plant) and writes one error record; one that succeeds sets
    the firmware gauge of (plant, version) to 1.  Either way [main] goes on:
    every registry entry is asked for its firmware version once, in
    registry order, and every cycle of the loop that follows attempts every
    registry entry, in registry order: no probe is dropped.  The loop is
    still running after any number of cycles. *)
Theorem firmware_failure_keeps_probe E fuel args contents plants w :
  args_scan args = false →
  env_open E (args_plants args) = Ok contents →
  env_json_load E contents = Ok (PyDict plants) →
  env_start_http_server E (args_port args) = Ok tt →
  let w' := exec (main E fuel args) w in
  (∀ mac plant poller w0 err,
     env_firmware_version E (clock w0) (poller_mac poller) = Err err →
     let w1 := exec (init_probe E (mac, plant, poller)) w0 in
     run (init_probe E (mac, plant, poller)) w0 = Returned tt ∧
     error_count w1 mac (env_str E plant) = S (error_count w0 mac (env_str E plant)) ∧
     gauges w1 = gauges w0 ∧
     trace w1 = trace w0 ++ [EvRead (poller_mac poller) FirmwareVersion;
                             EvLogError mac plant err;
                             EvLogInitialized plant mac]) ∧
  (∀ mac plant poller w0 version,
     env_firmware_version E (clock w0) (poller_mac poller) = Ok version →
     let w1 := exec (init_probe E (mac, plant, poller)) w0 in
     run (init_probe E (mac, plant, poller)) w0 = Returned tt ∧
     gauges w1 !! (firmware_version_metric, [env_str E plant; version]) = Some 1%Q ∧
     errors w1 = errors w0 ∧
     trace w1 = trace w0 ++ [EvRead (poller_mac poller) FirmwareVersion;
                             EvLogInitialized plant mac]) ∧
  run (main E fuel args) w = Running ∧
  asked_firmware (trace w') = asked_firmware (trace w) ++ plants.*1 ∧
  polled (trace w') = polled (trace w) ++ concat (replicate fuel plants.*1).
Proof.
  intros Hscan Hopen Hjson Hhttp w'. split; [|split].
  - intros mac plant poller w0 err Hfw w1. subst w1. unfold run, exec.
    rewrite (init_probe_failure _ _ _ _ _ _ Hfw). cbn [fst snd gauges trace].
    repeat split. unfold error_count at 1. cbn [errors].
    by rewrite lookup_insert_eq.
  - intros mac plant poller w0 version Hfw w1. subst w1. unfold run, exec.
    rewrite (init_probe_success _ _ _ _ _ _ Hfw). cbn [fst snd gauges errors trace].
    repeat split. apply lookup_insert_eq.
  - subst w'. unfold run, exec.
    rewrite (main_polling E fuel args contents plants w Hscan Hopen Hjson Hhttp).
    set (pollers := make_probe <$> plants). set (w0 := World _ _ _ _).
    destruct (poll_forever E pollers fuel (exec (for_each pollers (init_probe E)) w0))
      as (Hrun & Hpolled & Hasked).
    destruct (init_loop_spec E pollers w0) as (_ & Hpolled0 & Hasked0).
    unfold run, exec in *. rewrite Hpolled, Hasked, Hpolled0, Hasked0.
    subst w0 pollers. cbn [trace]. rewrite macs_of_made_probes.
    rewrite !polled_app, !asked_firmware_app.
    rewrite polled_new_pollers, asked_firmware_new_pollers.
    cbn. by rewrite !app_nil_r.
Qed.

(** ** The registry loader (lines 23-27) *)

(** C3.  A registry file that is missing or unreadable ([open] raises),
    that is not JSON ([json.load] raises) or whose top-level value is not
    an object (the [assert] fails) makes [load_plants] raise — the spec's
    ConfigError; [main] raises the same exception, in either mode, having
    done nothing but configure the log and open the file: the HTTP server
    is not started. *)
Theorem config_error_is_fatal E fuel args e w :
  ConfigError E (args_plants args) e →
  let w' := exec (main E fuel args) w in
  run (load_plants E (args_plants args)) w = Raised e ∧
  run (main E fuel args) w = Raised e ∧
  trace w' = trace w ++ [EvBasicConfig; EvOpen (args_plants args)] ∧
  (∀ port, EvStartHttpServer port ∈ trace w' → EvStartHttpServer port ∈ trace w).
Proof.
  intros He w'. subst w'. unfold run, exec.
  rewrite (load_plants_config_error _ _ _ _ He), (main_config_error _ _ _ _ _ He).
  cbn [fst snd emit trace]. rewrite <- app_assoc.
  repeat split. intros port [Hin|Hin]%elem_of_app; [done|].
  apply elem_of_cons in Hin as [?|Hin]; [done|].
  apply list_elem_of_singleton in Hin. done.
Qed.

(** C4.  For a file whose contents parse as a JSON object, [load_plants]
    returns the parsed object itself, key for key and value for value,
    whatever the keys and values are; of the world it changes nothing but
    the trace, which shows the file being opened. *)
Theorem load_plants_returns_parsed_object E file contents (d : pydict) w :
  env_open E file = Ok contents →
  env_json_load E contents = Ok (PyDict d) →
  load_plants E file w =
  (Returned d,
   World (clock w) (errors w) (gauges w) (trace w ++ [EvOpen file])).
Proof. intros Hopen Hjson. by erewrite load_plants_ok. Qed.

(** ** Discovery mode (lines 30-39 and 55-57) *)

Lemma new_device_line_inj (m m' : string) :
  "new device: " +:+ m = "new device: " +:+ m' → m = m'.
Proof. cbn. by intros [=]. Qed.

Lemma print_lines_spec (lines : list string) w :
  for_each lines (λ line, log (EvPrint line)) w =
  (Returned tt,
   World (clock w) (errors w) (gauges w) (trace w ++ (EvPrint <$> lines))).
Proof.
  revert w. induction lines as [|line lines IH]; intros w.
  - cbn. rewrite app_nil_r. by destruct w.
  - cbn [for_each]. unfold mbind, M_bind, log at 1. rewrite IH.
    cbn. by rewrite <- app_assoc.
Qed.

(** The lines discovery mode prints for a registry and a scan result. *)
Lemma scan_for_new_devices_ok E (plants : pydict) found w :
  env_miflora_scan E (clock w) = Ok found →
  let new_macs : gset string := list_to_set found ∖ list_to_set plants.*1 in
  scan_for_new_devices E plants w =
  (Returned tt,
   World (S (clock w)) (errors w) (gauges w)
         (trace w ++ EvScan ::
            (EvPrint <$> if decide (size new_macs = 0)
                         then ["no new devices detected"]
                         else (λ m, "new device: " +:+ m) <$> elements new_macs))).
Proof.
  intros Hscan new_macs. unfold scan_for_new_devices, miflora_scan, ble.
  unfold log at 1, get_clock, tick, lift, mbind at 1 2 3 4, M_bind at 1 2 3 4.
  cbn [emit clock set_clock]. rewrite Hscan. cbn [mret M_ret].
  fold new_macs. case_decide.
  - unfold print, log, emit. cbn. by rewrite <- app_assoc.
  - unfold print. rewrite <- list_fmap_compose.
    pose proof (print_lines_spec ((λ m, "new device: " +:+ m) <$> elements new_macs))
      as Hprint.
    assert (∀ (l : list string) w0,
              for_each l (λ res, log (EvPrint ("new device: " +:+ res))) w0 =
              for_each ((λ m, "new device: " +:+ m) <$> l)
                       (λ line, log (EvPrint line)) w0) as ->.
    { induction l as [|x l IH]; intros w0; [done|].
      cbn [for_each fmap list_fmap]. apply bind_ext. intros _ w1. apply IH. }
    rewrite Hprint. cbn. rewrite <- app_assoc, <- list_fmap_compose. done.
Qed.

Lemma scan_for_new_devices_error E (plants : pydict) e w :
  env_miflora_scan E (clock w) = Err e →
  scan_for_new_devices E plants w =
  (Raised e, World (S (clock w)) (errors w) (gauges w) (trace w ++ [EvScan])).
Proof.
  intros Hscan. unfold scan_for_new_devices, miflora_scan, ble.
  unfold log at 1, get_clock, tick, lift, mbind at 1 2 3 4, M_bind at 1 2 3 4.
  cbn [emit clock set_clock]. by rewrite Hscan.
Qed.

(** C6.  Discovery mode sends one scan request and prints, for the set
    difference of the identifiers the scan returned and the identifiers of
    the registry: the single line 'no new devices detected' when the
    difference is empty (the scan result is a subset of the registry), and
    otherwise exactly one line per identifier of the difference, in some
    order, so that an identifier has a line exactly when the scan found it
    and the registry does not know it.  For a registry with the
    identifiers A and B and a scan that returns A, B and C, the one line
    printed is the one of C. *)
Theorem scan_reports_set_difference E (plants : pydict) found w :
  env_miflora_scan E (clock w) = Ok found →
  let new_macs : gset string := list_to_set found ∖ list_to_set plants.*1 in
  ∃ lines,
    scan_for_new_devices E plants w =
      (Returned tt,
       World (S (clock w)) (errors w) (gauges w)
             (trace w ++ EvScan :: (EvPrint <$> lines))) ∧
    (found ⊆ plants.*1 → lines = ["no new devices detected"]) ∧
    (¬ found ⊆ plants.*1 →
       lines ≡ₚ (λ m, "new device: " +:+ m) <$> elements new_macs ∧
       ∀ m, "new device: " +:+ m ∈ lines ↔ m ∈ found ∧ m ∉ plants.*1) ∧
    (∀ A B C v1 v2,
       plants = [(A, v1); (B, v2)] → found ≡ₚ [A; B; C] → C ≠ A → C ≠ B →
       lines = ["new device: " +:+ C]).
Proof.
  intros Hscan new_macs. eexists. split; [by apply scan_for_new_devices_ok|].
  fold new_macs.
  assert (∀ m, m ∈ new_macs ↔ m ∈ found ∧ m ∉ plants.*1) as Hnew.
  { intros m. unfold new_macs.
    by rewrite elem_of_difference, !elem_of_list_to_set. }
  split; [|split].
  - intros Hsub. rewrite decide_True; [done|].
    apply size_empty_iff. intros m. rewrite Hnew.
    split; [intros [Hm Hout]; destruct Hout; by apply Hsub|].
    by intros ?%not_elem_of_empty.
  - intros Hsub. rewrite decide_False.
    + split; [done|]. intros m. rewrite list_elem_of_fmap. split.
      * intros (m' & ->%new_device_line_inj & Hin).
        by apply Hnew, elem_of_elements.
      * intros Hm. exists m. split; [done|]. by apply elem_of_elements, Hnew.
    + intros Hempty%size_empty_iff. apply Hsub. intros m Hm.
      destruct (decide (m ∈ plants.*1)) as [|Hout]; [done|].
      exfalso. apply (not_elem_of_empty (C:=gset string) m).
      apply Hempty, Hnew. done.
  - intros A B C v1 v2 -> Hfound HCA HCB.
    assert (new_macs = {[C]}) as ->.
    { apply set_eq. intros m. rewrite Hnew, Hfound, elem_of_singleton.
      cbn [fmap list_fmap fst]. rewrite !not_elem_of_cons, !elem_of_cons.
      split.
      - by intros [[->|[->|[->|?%elem_of_nil]]] (? & ? & _)].
      - intros ->. split; [by auto|]. repeat split; try done.
        apply not_elem_of_nil. }
    rewrite size_singleton, elements_singleton. done.
Qed.

Lemma registry_loads_or_config_error E file :
  (∃ contents d,
     env_open E file = Ok contents ∧ env_json_load E contents = Ok (PyDict d)) ∨
  (∃ e, ConfigError E file e).
Proof.
  destruct (env_open E file) as [contents|e] eqn:Hopen;
    [|right; exists e; by constructor].
  destruct (env_json_load E contents) as [v|e] eqn:Hjson;
    [|right; exists e; by econstructor 2].
  destruct v;
    try (right; exists AssertionError; by econstructor 3).
  left. by eauto.
Qed.

Lemma main_scanning E fuel args contents plants w :
  args_scan args = true →
  env_open E (args_plants args) = Ok contents →
  env_json_load E contents = Ok (PyDict plants) →
  main E fuel args w =
  scan_for_new_devices E plants
    (World (clock w) (errors w) (gauges w)
           (trace w ++ [EvBasicConfig; EvOpen (args_plants args)])).
Proof.
  intros Hscan Hopen Hjson. unfold main.
  erewrite bind_returned by reflexivity. cbv beta.
  erewrite bind_returned by (by eapply load_plants_ok). cbv beta.
  rewrite Hscan. unfold emit. cbn [clock errors gauges trace].
  by rewrite <- app_assoc.
Qed.

(** The three ways [main] can go in scan mode. *)
Lemma main_scan_cases E fuel args w :
  args_scan args = true →
  let file := args_plants args in
  (∃ e, ConfigError E file e ∧
        main E fuel args w =
          (Raised e,
           World (clock w) (errors w) (gauges w)
                 (trace w ++ [EvBasicConfig; EvOpen file]))) ∨
  (∃ e, env_miflora_scan E (clock w) = Err e ∧
        main E fuel args w =
          (Raised e,
           World (S (clock w)) (errors w) (gauges w)
                 (trace w ++ [EvBasicConfig; EvOpen file; EvScan]))) ∨
  (∃ lines, lines ≠ [] ∧
        main E fuel args w =
          (Returned tt,
           World (S (clock w)) (errors w) (gauges w)
                 (trace w ++ [EvBasicConfig; EvOpen file; EvScan]
                          ++ (EvPrint <$> lines)))).
Proof.
  intros Hscan file.
  destruct (registry_loads_or_config_error E file)
    as [(contents & plants & Hopen & Hjson) | [e He]].
  - right. rewrite (main_scanning _ _ _ _ _ _ Hscan Hopen Hjson).
    destruct (env_miflora_scan E (clock w)) as [found|e] eqn:Hfound.
    + right. rewrite (scan_for_new_devices_ok E plants found) by done.
      cbn [clock errors gauges trace]. rewrite <- app_assoc.
      eexists. split; [|reflexivity].
      case_decide as Hsize; [done|].
      intros Hnil%fmap_nil_inv%elements_empty_inv%size_empty_iff. done.
    + left. exists e. split; [done|].
      rewrite (scan_for_new_devices_error _ _ e) by done.
      cbn [clock errors gauges trace]. by rewrite <- app_assoc.
  - left. exists e. split; [done|].
    rewrite (main_config_error _ _ _ _ _ He). unfold emit.
    cbn [clock errors gauges trace]. by rewrite <- app_assoc.
Qed.

(** C8.  With [--scan], whatever happens: [main] only configures the log,
    opens the registry file, scans once and prints (no HTTP server is
    started, no poller is made, no probe is read, nothing sleeps), leaves
    every metric as it was, and is over (the loop of polling mode is never
    entered).  When the registry loads and the scan does not raise, [main]
    returns normally, after the scan and at least one printed line. *)
Theorem scan_mode_is_one_shot E fuel args w :
  args_scan args = true →
  let w' := exec (main E fuel args) w in
  (∃ evs, trace w' = trace w ++ evs ∧ Forall (λ e, scan_mode_event e = true) evs) ∧
  run (main E fuel args) w ≠ Running ∧
  errors w' = errors w ∧
  gauges w' = gauges w ∧
  (∀ contents plants found,
     env_open E (args_plants args) = Ok contents →
     env_json_load E contents = Ok (PyDict plants) →
     env_miflora_scan E (clock w) = Ok found →
     run (main E fuel args) w = Returned tt ∧
     ∃ lines, lines ≠ [] ∧
       trace w' = trace w ++ [EvBasicConfig; EvOpen (args_plants args); EvScan]
                          ++ (EvPrint <$> lines)).
Proof.
  intros Hscan w'. subst w'. unfold run, exec.
  destruct (main_scan_cases E fuel args w Hscan)
    as [(e & He & ->) | [(e & He & ->) | (lines & Hlines & ->)]];
    cbn [fst snd errors gauges trace].
  - split; [eexists; split; [done|by repeat constructor]|].
    do 3 (split; [done|]). intros contents plants found Hopen Hjson _.
    exfalso. inversion He; congruence.
  - split; [eexists; split; [done|by repeat constructor]|].
    do 3 (split; [done|]). intros contents plants found _ _ Hfound.
    congruence.
  - split.
    { eexists. split; [done|]. apply Forall_app. split; [by repeat constructor|].
      by apply Forall_fmap, Forall_true. }
    do 3 (split; [done|]). intros contents plants found _ _ _.
    split; [done|]. by exists lines.
Qed.

(** C9.  In scan mode the registry file is loaded before anything is
    scanned.  A registry file that is missing, not JSON or not an object
    makes [main] raise with no scan request sent (the clock of BLE requests
    has not moved and the trace shows no scan); a registry that loads is
    opened before the scan request is sent. *)
Theorem scan_mode_needs_registry E fuel args w :
  args_scan args = true →
  let w' := exec (main E fuel args) w in
  (∀ e, ConfigError E (args_plants args) e →
        run (main E fuel args) w = Raised e ∧
        clock w' = clock w ∧
        trace w' = trace w ++ [EvBasicConfig; EvOpen (args_plants args)] ∧
        (EvScan ∈ trace w' → EvScan ∈ trace w)) ∧
  (∀ contents plants,
     env_open E (args_plants args) = Ok contents →
     env_json_load E contents = Ok (PyDict plants) →
     clock w' = S (clock w) ∧
     ∃ evs, trace w' = trace w ++ [EvBasicConfig; EvOpen (args_plants args); EvScan]
                              ++ evs).
Proof.
  intros Hscan w'. subst w'. unfold run, exec. split.
  - intros e He. rewrite (main_config_error _ _ _ _ _ He).
    cbn [fst snd emit clock trace]. rewrite <- app_assoc. repeat split.
    intros [Hin|Hin]%elem_of_app; [done|].
    apply elem_of_cons in Hin as [?|Hin]; [done|].
    by apply list_elem_of_singleton in Hin.
  - intros contents plants Hopen Hjson.
    destruct (main_scan_cases E fuel args w Hscan)
      as [(e & He & ->) | [(e & He & ->) | (lines & Hlines & ->)]];
      cbn [fst snd clock trace].
    + exfalso. inversion He; congruence.
    + split; [done|]. exists []. by rewrite app_nil_r.
    + split; [done|]. by exists (EvPrint <$> lines).
Qed.

(** ** The theorems at work in the garden *)

Lemma garden_started_spec :
  garden_started = exec (main garden 0 (poll_args "plants.json")) initial_world ∧
  trace garden_started =
    [EvBasicConfig; EvOpen "plants.json"; EvStartHttpServer 9004; EvLogStarted 9004;
     EvNewPoller probe_01; EvNewPoller probe_02; EvNewPoller probe_03;
     EvRead probe_01 FirmwareVersion; EvLogInitialized (PyStr "basil") probe_01;
     EvRead probe_02 FirmwareVersion; EvLogInitialized (PyStr "basil") probe_02;
     EvRead probe_03 FirmwareVersion; EvLogError probe_03 (PyStr "mint") unreachable;
     EvLogInitialized (PyStr "mint") probe_03].
Proof. split; vm_compute; reflexivity. Qed.

(** Probe 03 answers the battery request with 88 and raises on the
    conductivity request. *)
Lemma poll_probe_read_failure_witness :
  let w' := exec (poll_probe garden mint_03) garden_started in
  error_count w' probe_03 "mint" = S (error_count garden_started probe_03 "mint") ∧
  gauges w' !! (battery_level_metric, ["mint"]) = Some (88 # 1)%Q ∧
  gauges w' !! (light_metric, ["mint"]) = gauges garden_started !! (light_metric, ["mint"]).
Proof.
  destruct (poll_probe_read_failure garden probe_03 (PyStr "mint")
              {| poller_mac := probe_03 |} garden_started [(88 # 1)%Q]
              unreachable eq_refl)
    as (_ & _ & _ & _ & Hcount & _ & Hset & _ & Hlater).
  split; [exact Hcount|]. split.
  - exact (proj2 (Hset 0 battery_level_metric BatteryLevel
                    (λ c, env_battery_level garden c probe_03) (88 # 1)%Q
                    eq_refl eq_refl)).
  - apply (Hlater 2 light_metric (ParameterValue "light")
                  (λ c, env_parameter_value garden c probe_03 "light") ["mint"]
                  eq_refl).
    simpl. lia.
Defined.

(** Probes 01 and 02 are both "basil"; both answer all five requests. *)
Lemma shared_plant_later_probe_wins_witness :
  gauges (exec (poll_probe garden basil_01) garden_started)
    !! (battery_level_metric, ["basil"]) = Some (42 # 1)%Q ∧
  gauges (exec (polling_cycle garden [basil_01; basil_02; mint_03]) garden_started)
    !! (battery_level_metric, ["basil"]) = Some (7 # 1)%Q.
Proof.
  assert (∀ q, q ∈ [mint_03] →
               env_str garden (probe_plant q) ≠ env_str garden (PyStr "basil"))
    as Hpost.
  { intros q ->%list_elem_of_singleton. discriminate. }
  destruct (shared_plant_later_probe_wins garden [] [] [mint_03]
              probe_01 (PyStr "basil") {| poller_mac := probe_01 |}
              probe_02 (PyStr "basil") {| poller_mac := probe_02 |}
              garden_started
              [42 # 1; 350 # 1; 1200 # 1; 30 # 1; 43 # 2]%Q
              [7 # 1; 100 # 1; 900 # 1; 55 # 1; 18 # 1]%Q
              eq_refl Hpost eq_refl eq_refl) as (Hgauges & _).
  exact (Hgauges 0 battery_level_metric BatteryLevel
           (λ c, env_battery_level garden c probe_01)
           (λ c, env_battery_level garden c probe_02)
           (42 # 1)%Q (7 # 1)%Q eq_refl eq_refl eq_refl eq_refl).
Defined.

(** The firmware read of probe 03 raises at start-up; two cycles later
    probe 03 has been attempted twice, like the others. *)
Lemma firmware_failure_keeps_probe_witness :
  let w' := exec (main garden 2 (poll_args "plants.json")) initial_world in
  run (main garden 2 (poll_args "plants.json")) initial_world = Running ∧
  asked_firmware (trace w') = [probe_01; probe_02; probe_03] ∧
  polled (trace w') = [probe_01; probe_02; probe_03; probe_01; probe_02; probe_03].
Proof.
  destruct (firmware_failure_keeps_probe garden 2 (poll_args "plants.json")
              "{ the registry }" garden_registry initial_world
              eq_refl eq_refl eq_refl eq_refl)
    as (_ & _ & Hrun & Hasked & Hpolled).
  split; [exact Hrun|]. split; [exact Hasked|exact Hpolled].
Defined.

(** A registry file holding a JSON array. *)
Lemma config_error_is_fatal_witness :
  run (main garden 3 (poll_args "array.json")) initial_world = Raised AssertionError ∧
  trace (exec (main garden 3 (poll_args "array.json")) initial_world) =
    [EvBasicConfig; EvOpen "array.json"].
Proof.
  assert (ConfigError garden "array.json" AssertionError) as He.
  { apply (config_not_an_object garden "array.json" "[]" (PyList []));
      [reflexivity | reflexivity | discriminate]. }
  destruct (config_error_is_fatal garden 3 (poll_args "array.json")
              AssertionError initial_world He) as (_ & Hrun & Htrace & _).
  split; [exact Hrun|exact Htrace].
Defined.

Lemma load_plants_returns_parsed_object_witness :
  load_plants garden "plants.json" initial_world =
  (Returned garden_registry, World 0 ∅ ∅ [EvOpen "plants.json"]).
Proof.
  exact (load_plants_returns_parsed_object garden "plants.json"
           "{ the registry }" garden_registry initial_world eq_refl eq_refl).
Defined.

(** The scan finds the three probes of the registry and probe 04. *)
Lemma scan_reports_set_difference_witness :
  ∃ lines,
    scan_for_new_devices garden garden_registry initial_world =
      (Returned tt, World 1 ∅ ∅ (EvScan :: (EvPrint <$> lines))) ∧
    ∀ m, "new device: " +:+ m ∈ lines ↔
         m ∈ [probe_04; probe_01; probe_02; probe_03] ∧ m ∉ garden_registry.*1.
Proof.
  destruct (scan_reports_set_difference garden garden_registry
              [probe_04; probe_01; probe_02; probe_03] initial_world eq_refl)
    as (lines & Hrun & _ & Hnew & _).
  exists lines. split; [exact Hrun|]. apply Hnew.
  intros Hsub. specialize (Hsub probe_04 (list_elem_of_here _ _)).
  apply list_elem_of_In in Hsub. simpl in Hsub.
  destruct Hsub as [H|[H|[H|[]]]]; discriminate H.
Defined.

Lemma scan_mode_is_one_shot_witness :
  run (main garden 7 (scan_args "plants.json")) initial_world = Returned tt ∧
  gauges (exec (main garden 7 (scan_args "plants.json")) initial_world) = ∅.
Proof.
  destruct (scan_mode_is_one_shot garden 7 (scan_args "plants.json")
              initial_world eq_refl) as (_ & _ & _ & Hgauges & Hok).
  split; [|exact Hgauges].
  exact (proj1 (Hok "{ the registry }" garden_registry
                    [probe_04; probe_01; probe_02; probe_03]
                    eq_refl eq_refl eq_refl)).
Defined.

(** Scan mode on a registry file that is not JSON. *)
Lemma scan_mode_needs_registry_witness :
  run (main garden 7 (scan_args "broken.json")) initial_world =
    Raised (JSONDecodeError "Expecting property name") ∧
  clock (exec (main garden 7 (scan_args "broken.json")) initial_world) = 0.
Proof.
  assert (ConfigError garden "broken.json"
            (JSONDecodeError "Expecting property name")) as He.
  { apply (config_unparseable garden "broken.json" "{"); reflexivity. }
  destruct (scan_mode_needs_registry garden 7 (scan_args "broken.json")
              initial_world eq_refl) as (Hbad & _).
  destruct (Hbad _ He) as (Hrun & Hclock & _).
  split; [exact Hrun|exact Hclock].
Defined.

(** * Beyond the claims: the whole run *)

(** ** The exact trace of the start-up loop and of the polling loop *)

Lemma init_probe_trace E p w :
  init_probe E p w =
  (Returned tt,
   World (S (clock w)) (errors (exec (init_probe E p) w))
         (gauges (exec (init_probe E p) w))
         (trace w ++ init_turn_events E p (clock w))).
Proof.
  destruct p as [[mac plant] poller].
  unfold init_turn_events, probe_poller, probe_mac, probe_plant. cbn [fst snd].
  destruct (env_firmware_version E (clock w) (poller_mac poller))
    as [version|err] eqn:Hfw.
  - unfold exec. by rewrite (init_probe_success _ _ _ _ _ _ Hfw).
  - unfold exec. by rewrite (init_probe_failure _ _ _ _ _ _ Hfw).
Qed.

Lemma init_loop_cons E p l w :
  exec (for_each (p :: l) (init_probe E)) w =
  exec (for_each l (init_probe E)) (exec (init_probe E p) w).
Proof. unfold exec at 1. by rewrite for_each_cons by apply init_probe_returns. Qed.

Lemma init_loop_trace E pollers w :
  clock (exec (for_each pollers (init_probe E)) w) = clock w + length pollers ∧
  trace (exec (for_each pollers (init_probe E)) w) =
    trace w ++ init_events E pollers (clock w).
Proof.
  revert w. induction pollers as [|p l IH]; intros w.
  - cbn. by rewrite Nat.add_0_r, app_nil_r.
  - rewrite init_loop_cons. destruct (IH (exec (init_probe E p) w)) as [-> ->].
    unfold exec. rewrite init_probe_trace. cbn [snd clock trace init_events length].
    split; [lia|]. by rewrite <- app_assoc.
Qed.

Lemma poll_loop_clock E pollers w :
  clock (exec (for_each pollers (poll_probe E)) w) =
  clock w + cycle_requests E pollers (clock w).
Proof.
  revert w. induction pollers as [|p l IH]; intros w.
  - cbn. lia.
  - rewrite poll_loop_cons, IH. unfold exec. rewrite poll_probe_trace.
    cbn [snd clock cycle_requests]. lia.
Qed.

Lemma while_true_step E pollers fuel w :
  while_true (S fuel) (polling_cycle E pollers) w =
  while_true fuel (polling_cycle E pollers)
             (emit (EvSleep 600) (exec (for_each pollers (poll_probe E)) w)).
Proof. cbn [while_true]. unfold mbind, M_bind. by rewrite polling_cycle_spec. Qed.

Lemma poll_forever_trace E pollers fuel w :
  trace (exec (while_true fuel (polling_cycle E pollers)) w) =
  trace w ++ loop_events E pollers fuel (clock w).
Proof.
  revert w. induction fuel as [|fuel IH]; intros w.
  - cbn. by rewrite app_nil_r.
  - unfold exec at 1. rewrite while_true_step.
    pose proof (IH (emit (EvSleep 600) (exec (for_each pollers (poll_probe E)) w)))
      as Hrest.
    unfold exec at 1 in Hrest. rewrite Hrest. cbn [emit trace clock loop_events].
    rewrite poll_loop_trace, poll_loop_clock. by rewrite <- !app_assoc.
Qed.

Lemma omap_all_none {A} (f : event → option A) (t : list event) :
  Forall (λ e, f e = None) t → omap f t = [].
Proof.
  induction 1 as [|e t He _ IH]; [done|]. cbn. by rewrite He.
Qed.

Lemma cycle_events_poll E pollers c :
  Forall (λ e, is_poll_event e = true) (cycle_events E pollers c).
Proof.
  revert c. induction pollers as [|p l IH]; intros c; [done|].
  cbn [cycle_events]. apply Forall_app. split; [|apply IH].
  unfold turn_events. apply Forall_app. split.
  - apply Forall_forall. intros e Hin.
    apply list_elem_of_fmap in Hin as ([[g r] a] & -> & Hin).
    apply subseteq_take in Hin. unfold poll_schedule in Hin.
    repeat (apply elem_of_cons in Hin as [[= -> -> ->]|Hin]; [done|]).
    by apply elem_of_nil in Hin.
  - by destruct (turn_replies E p c).2; repeat constructor.
Qed.

Ltac not_a_poll_event :=
  apply omap_all_none;
  eapply Forall_impl; [apply cycle_events_poll|];
  by intros [| | | | | | |? []| | |].

Lemma sleeps_cycle_events E pollers c : sleeps (cycle_events E pollers c) = [].
Proof. not_a_poll_event. Qed.

Lemma initialized_cycle_events E pollers c :
  initialized (cycle_events E pollers c) = [].
Proof. not_a_poll_event. Qed.

Lemma server_starts_cycle_events E pollers c :
  server_starts (cycle_events E pollers c) = [].
Proof. not_a_poll_event. Qed.

Lemma pollers_made_cycle_events E pollers c :
  pollers_made (cycle_events E pollers c) = [].
Proof. not_a_poll_event. Qed.

Section LoopReadings.
Context {A : Type} (f : event → option A).

(** A reading of the trace that sees nothing in a probe's turn sees, of a
    run of the polling loop, the sleeps only. *)
Lemma omap_loop_events E pollers fuel c :
  (∀ pollers' c', omap f (cycle_events E pollers' c') = []) →
  omap f (loop_events E pollers fuel c) =
  concat (replicate fuel (omap f [EvSleep 600])).
Proof.
  intros Hcycle. revert c. induction fuel as [|fuel IH]; intros c; [done|].
  cbn [loop_events replicate concat]. rewrite omap_app, Hcycle.
  rewrite (omap_app f [EvSleep 600] (loop_events _ _ _ _) : omap f (_ :: _) = _).
  by rewrite IH.
Qed.

(** A reading that sees neither requests nor error records sees, of the
    start-up loop, the 'initialized' records only. *)
Lemma omap_init_events E pollers c :
  (∀ mac r, f (EvRead mac r) = None) →
  (∀ mac plant err, f (EvLogError mac plant err) = None) →
  omap f (init_events E pollers c) =
  omap f ((λ p, EvLogInitialized (probe_plant p) (probe_mac p)) <$> pollers).
Proof.
  intros Hread Hlog. revert c. induction pollers as [|p l IH]; intros c; [done|].
  cbn [init_events fmap list_fmap]. rewrite omap_app, IH.
  rewrite (omap_app f [EvLogInitialized (probe_plant p) (probe_mac p)] _
           : omap f (_ :: _) = _).
  f_equal. unfold init_turn_events.
  destruct (env_firmware_version E c (poller_mac (probe_poller p)));
    cbn; by rewrite Hread, ?Hlog.
Qed.

End LoopReadings.

Lemma made_probes_items (plants : pydict) :
  (λ p, (probe_mac p, probe_plant p)) <$> (make_probe <$> plants) = plants.
Proof.
  rewrite <- list_fmap_compose. rewrite <- (list_fmap_id plants) at 2.
  apply list_fmap_ext. by intros _ [mac plant] _.
Qed.

(** The whole trace of [main] in polling mode. *)
Lemma main_polling_trace E fuel args contents plants w :
  args_scan args = false →
  env_open E (args_plants args) = Ok contents →
  env_json_load E contents = Ok (PyDict plants) →
  env_start_http_server E (args_port args) = Ok tt →
  let pollers := make_probe <$> plants in
  trace (exec (main E fuel args) w) =
    trace w
    ++ [EvBasicConfig; EvOpen (args_plants args);
        EvStartHttpServer (args_port args); EvLogStarted (args_port args)]
    ++ (EvNewPoller <$> plants.*1)
    ++ init_events E pollers (clock w)
    ++ loop_events E pollers fuel (clock w + length plants).
Proof.
  intros Hscan Hopen Hjson Hhttp pollers. unfold exec at 1.
  rewrite (main_polling E fuel args contents plants w Hscan Hopen Hjson Hhttp).
  fold pollers. set (w0 := World _ _ _ _).
  pose proof (poll_forever_trace E pollers fuel
                (exec (for_each pollers (init_probe E)) w0)) as Hloop.
  unfold exec at 1 in Hloop. rewrite Hloop.
  destruct (init_loop_trace E pollers w0) as [-> ->].
  subst w0 pollers. cbn [clock trace]. rewrite length_fmap.
  by rewrite <- !app_assoc.
Qed.

Lemma concat_replicate_nil {A} (n : nat) : concat (replicate n (@nil A)) = [].
Proof. induction n as [|n IH]; [done|]. apply IH. Qed.

Lemma concat_replicate_singleton {A} (n : nat) (x : A) :
  concat (replicate n [x]) = replicate n x.
Proof. induction n as [|n IH]; [done|]. cbn. by rewrite IH. Qed.

Lemma omap_loop_events_none {A} (f : event → option A) E pollers fuel c :
  (∀ pollers' c', omap f (cycle_events E pollers' c') = []) →
  (∀ seconds, f (EvSleep seconds) = None) →
  omap f (loop_events E pollers fuel c) = [].
Proof.
  intros Hcycle Hsleep. rewrite omap_loop_events by done.
  cbn. rewrite Hsleep. apply concat_replicate_nil.
Qed.

Lemma omap_new_pollers {A} (f : event → option A) (macs : list string) :
  (∀ mac, f (EvNewPoller mac) = None) → omap f (EvNewPoller <$> macs) = [].
Proof.
  intros Hf. apply omap_all_none, Forall_fmap, Forall_true. intros mac. apply Hf.
Qed.

Lemma omap_initialized_records {A} (f : event → option A) (pollers : list probe) :
  (∀ plant mac, f (EvLogInitialized plant mac) = None) →
  omap f ((λ p, EvLogInitialized (probe_plant p) (probe_mac p)) <$> pollers) = [].
Proof.
  intros Hf. apply omap_all_none, Forall_fmap, Forall_true. intros p. apply Hf.
Qed.

(** ** Start-up order (lines 54-65) *)

(** X1.  In polling mode, when the registry loads and the port binds, the
    trace of [main] is: the log is configured, the registry file opened,
    the HTTP server started and the start logged, one poller made per
    registry entry in registry order, then the start-up loop and the
    polling loop.  The server is started exactly once, before any poller
    is made and before any request is sent to a probe, and no poller is
    made later. *)
Theorem polling_mode_startup_order E fuel args contents plants w :
  args_scan args = false →
  env_open E (args_plants args) = Ok contents →
  env_json_load E contents = Ok (PyDict plants) →
  env_start_http_server E (args_port args) = Ok tt →
  let w' := exec (main E fuel args) w in
  let pollers := make_probe <$> plants in
  trace w' =
    trace w
    ++ [EvBasicConfig; EvOpen (args_plants args);
        EvStartHttpServer (args_port args); EvLogStarted (args_port args)]
    ++ (EvNewPoller <$> plants.*1)
    ++ init_events E pollers (clock w)
    ++ loop_events E pollers fuel (clock w + length plants) ∧
  server_starts (init_events E pollers (clock w)
                 ++ loop_events E pollers fuel (clock w + length plants)) = [] ∧
  pollers_made (init_events E pollers (clock w)
                ++ loop_events E pollers fuel (clock w + length plants)) = [] ∧
  server_starts (trace w') = server_starts (trace w) ++ [args_port args] ∧
  pollers_made (trace w') = pollers_made (trace w) ++ plants.*1.
Proof.
  intros Hscan Hopen Hjson Hhttp w' pollers. subst w'.
  rewrite (main_polling_trace E fuel args contents plants w Hscan Hopen Hjson Hhttp).
  fold pollers.
  assert (server_starts (init_events E pollers (clock w)
            ++ loop_events E pollers fuel (clock w + length plants)) = []) as Hserver.
  { unfold server_starts. rewrite omap_app, omap_init_events by done.
    rewrite omap_initialized_records by done.
    by rewrite omap_loop_events_none by (done || apply server_starts_cycle_events). }
  assert (pollers_made (init_events E pollers (clock w)
            ++ loop_events E pollers fuel (clock w + length plants)) = []) as Hmade.
  { unfold pollers_made. rewrite omap_app, omap_init_events by done.
    rewrite omap_initialized_records by done.
    by rewrite omap_loop_events_none by (done || apply pollers_made_cycle_events). }
  split; [done|]. split; [done|]. split; [done|]. split.
  - unfold server_starts in *. rewrite omap_app in Hserver.
    apply app_eq_nil in Hserver as [Hinit Hloop].
    rewrite !omap_app, Hinit, Hloop.
    rewrite omap_new_pollers by done. by rewrite !app_nil_r.
  - unfold pollers_made in *. rewrite omap_app in Hmade.
    apply app_eq_nil in Hmade as [Hinit Hloop].
    rewrite !omap_app, Hinit, Hloop. rewrite !app_nil_r.
    f_equal. cbn. clear. induction plants as [|[mac plant] l IH]; [done|].
    cbn. by rewrite IH.
Qed.

Lemma polling_mode_startup_order_witness :
  server_starts (trace (exec (main garden 2 (poll_args "plants.json")) initial_world))
    = [9004%Z] ∧
  pollers_made (trace (exec (main garden 2 (poll_args "plants.json")) initial_world))
    = [probe_01; probe_02; probe_03].
Proof.
  destruct (polling_mode_startup_order garden 2 (poll_args "plants.json")
              "{ the registry }" garden_registry initial_world
              eq_refl eq_refl eq_refl eq_refl)
    as (_ & _ & _ & Hserver & Hmade).
  split; [exact Hserver|exact Hmade].
Defined.

(** ** The 'initialized' records (line 74) *)

(** X2.  The 'initialized' record of line 74 is written after the [try]
    statement, not in it: in polling mode [main] writes one for every
    registry entry, in registry order, whether the firmware read of the
    probe succeeded or raised, and none during the polling loop. *)
Theorem initialized_record_for_every_entry E fuel args contents plants w :
  args_scan args = false →
  env_open E (args_plants args) = Ok contents →
  env_json_load E contents = Ok (PyDict plants) →
  env_start_http_server E (args_port args) = Ok tt →
  initialized (trace (exec (main E fuel args) w)) = initialized (trace w) ++ plants.
Proof.
  intros Hscan Hopen Hjson Hhttp.
  rewrite (main_polling_trace E fuel args contents plants w Hscan Hopen Hjson Hhttp).
  unfold initialized. rewrite !omap_app. rewrite omap_new_pollers by done.
  rewrite omap_init_events by done.
  rewrite omap_loop_events_none by (done || apply initialized_cycle_events).
  rewrite !app_nil_r. cbn [omap list_omap app].
  f_equal. rewrite <- (made_probes_items plants) at 2.
  generalize (make_probe <$> plants). intros l.
  induction l as [|p l IH]; [done|]. cbn. by rewrite <- IH.
Qed.

Lemma initialized_record_for_every_entry_witness :
  initialized (trace (exec (main garden 1 (poll_args "plants.json")) initial_world))
  = garden_registry.
Proof.
  exact (initialized_record_for_every_entry garden 1 (poll_args "plants.json")
           "{ the registry }" garden_registry initial_world
           eq_refl eq_refl eq_refl eq_refl).
Defined.

(** ** The sleeps (line 87) *)

(** X3.  The polling loop sleeps once per cycle and always for 600
    seconds, whatever the probes did in the cycle: after [fuel] cycles the
    trace shows [fuel] sleeps of 600 seconds, and the start-up sleeps
    never. *)
Theorem one_fixed_sleep_per_cycle E fuel args contents plants w :
  args_scan args = false →
  env_open E (args_plants args) = Ok contents →
  env_json_load E contents = Ok (PyDict plants) →
  env_start_http_server E (args_port args) = Ok tt →
  sleeps (trace (exec (main E fuel args) w)) = sleeps (trace w) ++ replicate fuel 600%Z.
Proof.
  intros Hscan Hopen Hjson Hhttp.
  rewrite (main_polling_trace E fuel args contents plants w Hscan Hopen Hjson Hhttp).
  unfold sleeps. rewrite !omap_app. rewrite omap_new_pollers by done.
  rewrite omap_init_events by done. rewrite omap_initialized_records by done.
  rewrite omap_loop_events by apply sleeps_cycle_events.
  cbn [omap list_omap app]. by rewrite concat_replicate_singleton.
Qed.

Lemma one_fixed_sleep_per_cycle_witness :
  sleeps (trace (exec (main garden 3 (poll_args "plants.json")) initial_world))
  = [600; 600; 600]%Z.
Proof.
  exact (one_fixed_sleep_per_cycle garden 3 (poll_args "plants.json")
           "{ the registry }" garden_registry initial_world
           eq_refl eq_refl eq_refl eq_refl).
Defined.

(** ** Fatal failures other than the registry's (lines 55-59) *)

Lemma main_port_failure E fuel args contents plants e w :
  args_scan args = false →
  env_open E (args_plants args) = Ok contents →
  env_json_load E contents = Ok (PyDict plants) →
  env_start_http_server E (args_port args) = Err e →
  main E fuel args w =
  (Raised e,
   World (clock w) (errors w) (gauges w)
         (trace w ++ [EvBasicConfig; EvOpen (args_plants args);
                      EvStartHttpServer (args_port args)])).
Proof.
  intros Hscan Hopen Hjson Hhttp. unfold main.
  erewrite bind_returned by reflexivity. cbv beta.
  erewrite bind_returned by (by eapply load_plants_ok). cbv beta.
  rewrite Hscan. erewrite bind_raised; [done|].
  unfold start_http_server, log, lift, mbind, M_bind. rewrite Hhttp.
  unfold raise, emit. cbn [clock errors gauges trace].
  by rewrite <- !app_assoc.
Qed.

(** X4.  In scan mode, a scan that raises is fatal: [main] raises the
    same exception right after the scan request, with nothing printed
    (not even 'no new devices detected') and no metric touched. *)
Theorem scan_failure_is_fatal E fuel args contents plants e w :
  args_scan args = true →
  env_open E (args_plants args) = Ok contents →
  env_json_load E contents = Ok (PyDict plants) →
  env_miflora_scan E (clock w) = Err e →
  main E fuel args w =
    (Raised e,
     World (S (clock w)) (errors w) (gauges w)
           (trace w ++ [EvBasicConfig; EvOpen (args_plants args); EvScan])) ∧
  printed (trace (exec (main E fuel args) w)) = printed (trace w).
Proof.
  intros Hscan Hopen Hjson Hble.
  assert (main E fuel args w =
    (Raised e,
     World (S (clock w)) (errors w) (gauges w)
           (trace w ++ [EvBasicConfig; EvOpen (args_plants args); EvScan]))) as Hmain.
  { rewrite (main_scanning _ _ _ _ _ _ Hscan Hopen Hjson).
    rewrite (scan_for_new_devices_error _ _ e) by done.
    cbn [clock errors gauges trace]. by rewrite <- app_assoc. }
  split; [done|]. unfold exec. rewrite Hmain. cbn [snd trace].
  unfold printed. rewrite omap_app. cbn. by rewrite app_nil_r.
Qed.

Lemma scan_failure_is_fatal_witness :
  run (main garden_without_bluetooth 1 (scan_args "plants.json")) initial_world =
    Raised (BluetoothBackendException "adapter hci0 is down") ∧
  printed (trace (exec (main garden_without_bluetooth 1 (scan_args "plants.json"))
                       initial_world)) = [].
Proof.
  destruct (scan_failure_is_fatal garden_without_bluetooth 1
              (scan_args "plants.json") "{ the registry }" garden_registry
              (BluetoothBackendException "adapter hci0 is down") initial_world
              eq_refl eq_refl eq_refl eq_refl) as [Hmain Hprinted].
  split; [|exact Hprinted]. unfold run. rewrite Hmain. reflexivity.
Defined.

(** X5.  In polling mode, a port that cannot be bound is fatal:
    [start_http_server] raises and [main] raises the same exception; the
    'started' record is not written, no poller is made, no request is sent
    to a probe (the clock has not moved), no metric is touched. *)
Theorem port_failure_is_fatal E fuel args contents plants e w :
  args_scan args = false →
  env_open E (args_plants args) = Ok contents →
  env_json_load E contents = Ok (PyDict plants) →
  env_start_http_server E (args_port args) = Err e →
  let w' := exec (main E fuel args) w in
  run (main E fuel args) w = Raised e ∧
  trace w' = trace w ++ [EvBasicConfig; EvOpen (args_plants args);
                         EvStartHttpServer (args_port args)] ∧
  pollers_made (trace w') = pollers_made (trace w) ∧
  clock w' = clock w ∧ errors w' = errors w ∧ gauges w' = gauges w.
Proof.
  intros Hscan Hopen Hjson Hhttp w'. subst w'. unfold run, exec.
  rewrite (main_port_failure _ _ _ _ _ _ _ Hscan Hopen Hjson Hhttp).
  cbn [fst snd clock errors gauges trace]. repeat split.
  unfold pollers_made. rewrite omap_app. cbn. by rewrite app_nil_r.
Qed.

Lemma port_failure_is_fatal_witness :
  run (main garden_port_taken 4 (poll_args "plants.json")) initial_world =
    Raised (OSError "Address already in use") ∧
  clock (exec (main garden_port_taken 4 (poll_args "plants.json")) initial_world) = 0.
Proof.
  destruct (port_failure_is_fatal garden_port_taken 4 (poll_args "plants.json")
              "{ the registry }" garden_registry (OSError "Address already in use")
              initial_world eq_refl eq_refl eq_refl eq_refl)
    as (Hrun & _ & _ & Hclock & _).
  split; [exact Hrun|exact Hclock].
Defined.

(** The four ways [main] can go. *)
Lemma main_cases E fuel args w :
  let file := args_plants args in
  let port := args_port args in
  (∃ e, ConfigError E file e ∧
        main E fuel args w =
          (Raised e,
           World (clock w) (errors w) (gauges w)
                 (trace w ++ [EvBasicConfig; EvOpen file]))) ∨
  (∃ o lines,
        main E fuel args w =
          (o, World (S (clock w)) (errors w) (gauges w)
                    (trace w ++ [EvBasicConfig; EvOpen file; EvScan]
                             ++ (EvPrint <$> lines)))) ∨
  (∃ e, main E fuel args w =
          (Raised e,
           World (clock w) (errors w) (gauges w)
                 (trace w ++ [EvBasicConfig; EvOpen file; EvStartHttpServer port]))) ∨
  (∃ contents plants,
        args_scan args = false ∧
        env_open E file = Ok contents ∧
        env_json_load E contents = Ok (PyDict plants) ∧
        env_start_http_server E port = Ok tt).
Proof.
  intros file port.
  destruct (registry_loads_or_config_error E file)
    as [(contents & plants & Hopen & Hjson) | [e He]].
  2:{ left. exists e. split; [done|].
      rewrite (main_config_error _ _ _ _ _ He). unfold emit.
      cbn [clock errors gauges trace]. by rewrite <- app_assoc. }
  right. destruct (args_scan args) eqn:Hscan.
  - left. destruct (main_scan_cases E fuel args w Hscan)
      as [(e & He & _) | [(e & He & ->) | (lines & Hlines & ->)]].
    + exfalso. inversion He; subst file; congruence.
    + exists (Raised e), []. by rewrite app_nil_r.
    + by exists (Returned tt), lines.
  - right. destruct (env_start_http_server E port) as [[]|e] eqn:Hhttp.
    + right. by exists contents, plants.
    + left. exists e. by eapply main_port_failure.
Qed.

(** ** Error accounting over a whole run (lines 71-73 and 84-86) *)

Lemma init_probe_counter E p w key :
  default 0 (errors (exec (init_probe E p) w) !! key) =
  default 0 (errors w !! key) + times_logged E key (init_turn_events E p (clock w)).
Proof.
  destruct p as [[mac plant] poller].
  unfold times_logged, logged_errors, init_turn_events.
  unfold probe_poller, probe_mac, probe_plant. cbn [fst snd].
  destruct (env_firmware_version E (clock w) (poller_mac poller))
    as [version|err] eqn:Hfw; unfold exec.
  - rewrite (init_probe_success _ _ _ _ _ _ Hfw). cbn. by rewrite Nat.add_0_r.
  - rewrite (init_probe_failure _ _ _ _ _ _ Hfw). cbn. unfold error_count.
    case_decide as Hkey.
    + subst key. rewrite lookup_insert_eq. simpl. lia.
    + rewrite lookup_insert_ne by done. simpl. lia.
Qed.

Lemma init_loop_counter E pollers w key :
  default 0 (errors (exec (for_each pollers (init_probe E)) w) !! key) =
  default 0 (errors w !! key) + times_logged E key (init_events E pollers (clock w)).
Proof.
  revert w. induction pollers as [|p l IH]; intros w.
  - unfold times_logged. cbn. lia.
  - rewrite init_loop_cons, IH, init_probe_counter. unfold exec at 1.
    rewrite init_probe_trace. cbn [snd clock init_events].
    rewrite times_logged_app. lia.
Qed.

Lemma poll_forever_counter E pollers fuel w key :
  default 0 (errors (exec (while_true fuel (polling_cycle E pollers)) w) !! key) =
  default 0 (errors w !! key) + times_logged E key (loop_events E pollers fuel (clock w)).
Proof.
  revert w. induction fuel as [|fuel IH]; intros w.
  - unfold times_logged. cbn. lia.
  - unfold exec at 1. rewrite while_true_step.
    pose proof (IH (emit (EvSleep 600) (exec (for_each pollers (poll_probe E)) w)))
      as Hrest.
    unfold exec at 1 in Hrest. rewrite Hrest. cbn [emit errors clock loop_events].
    rewrite poll_loop_counter, poll_loop_clock.
    rewrite times_logged_app.
    rewrite (times_logged_app E key [EvSleep 600] (loop_events _ _ _ _)
             : times_logged E key (_ :: _) = _).
    assert (times_logged E key [EvSleep 600] = 0) as -> by done. lia.
Qed.

Lemma times_logged_no_records E key (t : list event) :
  Forall (λ e, match e with EvLogError _ _ _ => False | _ => True end) t →
  times_logged E key t = 0.
Proof.
  intros Ht. unfold times_logged, logged_errors.
  rewrite omap_all_none; [done|].
  eapply Forall_impl; [exact Ht|]. by intros [].
Qed.

(** X6.  In every run of [main], whatever the environment, the mode and
    the number of cycles observed: every child of the error counter goes
    up by exactly the number of error records written for it during the
    run (at start-up and in the cycles); a counter never goes down, and it
    never moves without a record in the log. *)
Theorem error_counter_counts_error_records E fuel args w key :
  let w' := exec (main E fuel args) w in
  default 0 (errors w' !! key) + times_logged E key (trace w) =
    default 0 (errors w !! key) + times_logged E key (trace w') ∧
  default 0 (errors w !! key) ≤ default 0 (errors w' !! key).
Proof.
  intros w'.
  assert (∀ evs, errors w' = errors w → trace w' = trace w ++ evs →
                 times_logged E key evs = 0 →
                 default 0 (errors w' !! key) + times_logged E key (trace w) =
                 default 0 (errors w !! key) + times_logged E key (trace w') ∧
                 default 0 (errors w !! key) ≤ default 0 (errors w' !! key))
    as Hquiet.
  { intros evs -> -> Hevs. rewrite times_logged_app, Hevs. lia. }
  subst w'. unfold exec in *.
  destruct (main_cases E fuel args w)
    as [(e & _ & Hmain) | [(o & lines & Hmain) | [(e & Hmain) |
        (contents & plants & Hscan & Hopen & Hjson & Hhttp)]]].
  - rewrite Hmain in *. eapply Hquiet; [done..|].
    apply times_logged_no_records. by repeat constructor.
  - rewrite Hmain in *. eapply Hquiet; [done..|].
    apply times_logged_no_records, Forall_app.
    split; [by repeat constructor|]. by apply Forall_fmap, Forall_true.
  - rewrite Hmain in *. eapply Hquiet; [done..|].
    apply times_logged_no_records. by repeat constructor.
  - clear Hquiet.
    pose proof (main_polling_trace E fuel args contents plants w
                  Hscan Hopen Hjson Hhttp) as Htrace.
    unfold exec in Htrace. cbn zeta in Htrace. rewrite Htrace.
    rewrite (main_polling E fuel args contents plants w Hscan Hopen Hjson Hhttp).
    set (pollers := make_probe <$> plants). set (w0 := World _ _ _ _).
    pose proof (poll_forever_counter E pollers fuel
                  (exec (for_each pollers (init_probe E)) w0) key) as Hloop.
    unfold exec at 1 in Hloop. rewrite Hloop, init_loop_counter.
    destruct (init_loop_trace E pollers w0) as [-> _].
    subst w0. cbn [clock errors]. unfold pollers at 3. rewrite length_fmap.
    rewrite !times_logged_app.
    rewrite (times_logged_no_records E key [_; _; _; _]) by (by repeat constructor).
    rewrite (times_logged_no_records E key (EvNewPoller <$> _))
      by (by apply Forall_fmap, Forall_true).
    fold pollers. lia.
Qed.

(** ** How many requests a run sends (lines 67-87) *)

Lemma main_polling_exec E fuel args contents plants w :
  args_scan args = false →
  env_open E (args_plants args) = Ok contents →
  env_json_load E contents = Ok (PyDict plants) →
  env_start_http_server E (args_port args) = Ok tt →
  exec (main E fuel args) w =
  exec (while_true fuel (polling_cycle E (make_probe <$> plants)))
       (exec (for_each (make_probe <$> plants) (init_probe E))
             (world_before_init args plants w)).
Proof.
  intros Hscan Hopen Hjson Hhttp. unfold exec at 1 2.
  by rewrite (main_polling E fuel args contents plants w Hscan Hopen Hjson Hhttp).
Qed.

Lemma while_true_0 (body : M unit) w : exec (while_true 0 body) w = w.
Proof. done. Qed.






(** ** Which samples a run can touch (lines 67-87) *)

Lemma poll_probe_keeps_firmware E p w lv :
  gauges (exec (poll_probe E p) w) !! (firmware_version_metric, lv) =
  gauges w !! (firmware_version_metric, lv).
Proof.
  destruct p as [[mac plant] poller].
  destruct (replies (poll_schedule E (poller_mac poller)) (clock w))
    as [vs oe] eqn:Hrep.
  destruct (poll_probe_spec E mac plant poller w vs oe Hrep)
    as (G & Hrun & _ & Hframe & _).
  unfold exec. rewrite Hrun. apply Hframe. right.
  intros Hin%subseteq_take. unfold poll_schedule in Hin. cbn in Hin.
  repeat (apply elem_of_cons in Hin as [Hin|Hin]; [discriminate Hin|]).
  by apply elem_of_nil in Hin.
Qed.

Lemma init_probe_gauges_frame E p w g lv :
  g ≠ firmware_version_metric ∨ (∀ version, lv ≠ [env_str E (probe_plant p); version]) →
  gauges (exec (init_probe E p) w) !! (g, lv) = gauges w !! (g, lv).
Proof.
  destruct p as [[mac plant] poller]. unfold probe_plant. cbn [fst snd].
  intros Hout.
  destruct (env_firmware_version E (clock w) (poller_mac poller))
    as [version|err] eqn:Hfw; unfold exec.
  - rewrite (init_probe_success _ _ _ _ _ _ Hfw). cbn [snd gauges].
    apply lookup_insert_ne. intros [= <- <-].
    destruct Hout as [Hout|Hout]; [done|]. by apply (Hout version).
  - by rewrite (init_probe_failure _ _ _ _ _ _ Hfw).
Qed.

Lemma init_probe_errors_frame E p w key :
  key ≠ [probe_mac p; env_str E (probe_plant p)] →
  errors (exec (init_probe E p) w) !! key = errors w !! key.
Proof.
  destruct p as [[mac plant] poller]. unfold probe_plant, probe_mac. cbn [fst snd].
  intros Hkey.
  destruct (env_firmware_version E (clock w) (poller_mac poller))
    as [version|err] eqn:Hfw; unfold exec.
  - by rewrite (init_probe_success _ _ _ _ _ _ Hfw).
  - rewrite (init_probe_failure _ _ _ _ _ _ Hfw). cbn [snd errors].
    by rewrite lookup_insert_ne.
Qed.

(** What every turn of a loop leaves alone, the loop leaves alone. *)
Section Frames.
Context {V : Type} (E : environment) (read : world → V).

Lemma init_loop_frame pollers w :
  (∀ p w0, p ∈ pollers → read (exec (init_probe E p) w0) = read w0) →
  read (exec (for_each pollers (init_probe E)) w) = read w.
Proof.
  revert w. induction pollers as [|p l IH]; intros w Hturn; [done|].
  rewrite init_loop_cons, IH by (intros; apply Hturn; by right).
  apply Hturn. by left.
Qed.

Lemma poll_loop_frame pollers w :
  (∀ p w0, p ∈ pollers → read (exec (poll_probe E p) w0) = read w0) →
  read (exec (for_each pollers (poll_probe E)) w) = read w.
Proof.
  revert w. induction pollers as [|p l IH]; intros w Hturn; [done|].
  rewrite poll_loop_cons, IH by (intros; apply Hturn; by right).
  apply Hturn. by left.
Qed.

Lemma poll_forever_frame pollers fuel w :
  (∀ e w0, read (emit e w0) = read w0) →
  (∀ p w0, p ∈ pollers → read (exec (poll_probe E p) w0) = read w0) →
  read (exec (while_true fuel (polling_cycle E pollers)) w) = read w.
Proof.
  intros Hemit Hturn. revert w. induction fuel as [|fuel IH]; intros w; [done|].
  set (w1 := emit (EvSleep 600) (exec (for_each pollers (poll_probe E)) w)).
  assert (exec (while_true (S fuel) (polling_cycle E pollers)) w =
          exec (while_true fuel (polling_cycle E pollers)) w1) as ->.
  { unfold exec at 1 2. by rewrite while_true_step. }
  rewrite IH. subst w1. rewrite Hemit. by apply poll_loop_frame.
Qed.

End Frames.

(** X8.  Firmware versions are updated only once (the comment of line
    66): what the firmware gauge shows when the start-up is over, it shows
    after any number of cycles, also for a probe whose firmware read
    raised at start-up; and the start-up touches no other gauge. *)
Theorem firmware_gauge_set_at_startup_only E fuel args contents plants w :
  args_scan args = false →
  env_open E (args_plants args) = Ok contents →
  env_json_load E contents = Ok (PyDict plants) →
  env_start_http_server E (args_port args) = Ok tt →
  (∀ lv, gauges (exec (main E fuel args) w) !! (firmware_version_metric, lv) =
         gauges (exec (main E 0 args) w) !! (firmware_version_metric, lv)) ∧
  (∀ g lv, g ≠ firmware_version_metric →
           gauges (exec (main E 0 args) w) !! (g, lv) = gauges w !! (g, lv)).
Proof.
  intros Hscan Hopen Hjson Hhttp.
  rewrite !(main_polling_exec E _ args contents plants w Hscan Hopen Hjson Hhttp).
  rewrite while_true_0. split.
  - intros lv.
    apply (poll_forever_frame E (λ w0, gauges w0 !! (firmware_version_metric, lv)));
      [done|]. intros p w0 _. apply poll_probe_keeps_firmware.
  - intros g lv Hg.
    rewrite (init_loop_frame E (λ w0, gauges w0 !! (g, lv))); [done|].
    intros p w0 _. apply init_probe_gauges_frame. by left.
Qed.

Lemma firmware_gauge_set_at_startup_only_witness :
  gauges (exec (main garden 2 (poll_args "plants.json")) initial_world)
    !! (firmware_version_metric, ["mint"; "3.2.1"]) = None ∧
  gauges (exec (main garden 2 (poll_args "plants.json")) initial_world)
    !! (firmware_version_metric, ["basil"; "3.2.1"]) = Some 1%Q.
Proof.
  destruct (firmware_gauge_set_at_startup_only garden 2 (poll_args "plants.json")
              "{ the registry }" garden_registry initial_world
              eq_refl eq_refl eq_refl eq_refl) as [Hfixed _].
  split; rewrite Hfixed; vm_compute; reflexivity.
Defined.

(** X9.  In polling mode a run only touches samples of the registry: a
    gauge child whose plant label is not the name of a registry plant, and
    an error counter child that is not the (identifier, plant) of a
    registry entry, is after any number of cycles exactly what it was,
    existing or not. *)
Theorem samples_outside_registry_untouched E fuel args contents plants w :
  args_scan args = false →
  env_open E (args_plants args) = Ok contents →
  env_json_load E contents = Ok (PyDict plants) →
  env_start_http_server E (args_port args) = Ok tt →
  let w' := exec (main E fuel args) w in
  (∀ g lv, (∀ mac plant rest, (mac, plant) ∈ plants → lv ≠ env_str E plant :: rest) →
           gauges w' !! (g, lv) = gauges w !! (g, lv)) ∧
  (∀ key, (∀ mac plant, (mac, plant) ∈ plants → key ≠ [mac; env_str E plant]) →
          errors w' !! key = errors w !! key).
Proof.
  intros Hscan Hopen Hjson Hhttp w'. subst w'.
  rewrite (main_polling_exec E _ args contents plants w Hscan Hopen Hjson Hhttp).
  assert (∀ p, p ∈ make_probe <$> plants → (probe_mac p, probe_plant p) ∈ plants)
    as Hitem.
  { intros p ([mac plant] & -> & Hin)%list_elem_of_fmap. done. }
  split.
  - intros g lv Hout.
    rewrite (poll_forever_frame E (λ w0, gauges w0 !! (g, lv))); [|done|].
    + rewrite (init_loop_frame E (λ w0, gauges w0 !! (g, lv))); [done|].
      intros p w0 Hp. apply init_probe_gauges_frame. right. intros version.
      eapply Hout, Hitem, Hp.
    + intros p w0 Hp. apply poll_probe_gauges_frame.
      eapply Hout, Hitem, Hp.
  - intros key Hout.
    rewrite (poll_forever_frame E (λ w0, errors w0 !! key)); [|done|].
    + rewrite (init_loop_frame E (λ w0, errors w0 !! key)); [done|].
      intros p w0 Hp. apply init_probe_errors_frame. eapply Hout, Hitem, Hp.
    + intros p w0 Hp. apply poll_probe_errors_frame. eapply Hout, Hitem, Hp.
Qed.

Lemma samples_outside_registry_untouched_witness :
  gauges (exec (main garden 2 (poll_args "plants.json")) initial_world)
    !! (battery_level_metric, ["thyme"]) = None.
Proof.
  destruct (samples_outside_registry_untouched garden 2 (poll_args "plants.json")
              "{ the registry }" garden_registry initial_world
              eq_refl eq_refl eq_refl eq_refl) as [Houtside _].
  apply (Houtside battery_level_metric ["thyme"]).
  intros mac plant rest Hin. apply list_elem_of_In in Hin. simpl in Hin.
  destruct Hin as [H|[H|[H|[]]]]; injection H as <- <-; discriminate.
Defined.

(** ** No series is ever lost *)

Lemma keeps_children_refl w : keeps_children w w.
Proof. by split. Qed.

Lemma keeps_children_trans w1 w2 w3 :
  keeps_children w1 w2 → keeps_children w2 w3 → keeps_children w1 w3.
Proof. intros [Hg1 He1] [Hg2 He2]. split; intros; [apply Hg2, Hg1|apply He2, He1]; done. Qed.

Lemma keeps_children_same w w' :
  gauges w' = gauges w → errors w' = errors w → keeps_children w w'.
Proof. intros Hg He. unfold keeps_children. by rewrite Hg, He. Qed.

Lemma created_is_Some (c c' : child) (m : gmap child Q) :
  is_Some (m !! c') → is_Some (created c m !! c').
Proof.
  unfold created. destruct (m !! c) eqn:Hc; [done|]. intros Hsome.
  rewrite lookup_insert_ne; [done|]. intros <-. rewrite Hc in Hsome.
  by destruct Hsome.
Qed.

Lemma insert_is_Some {K V} `{Countable K} (k k' : K) (v : V) (m : gmap K V) :
  is_Some (m !! k') → is_Some (<[k := v]> m !! k').
Proof.
  intros Hsome. destruct (decide (k = k')) as [<-|Hne].
  - by rewrite lookup_insert_eq.
  - by rewrite lookup_insert_ne.
Qed.

Lemma run_schedule_keeps lbl pmac sch w :
  keeps_children w (exec (run_schedule lbl pmac sch) w).
Proof.
  revert w. induction sch as [|[[g r] a] sch IH]; intros w.
  - apply keeps_children_refl.
  - unfold exec. cbn [run_schedule]. unfold mbind at 1, M_bind at 1.
    rewrite labels_set_ble. destruct (a (clock w)) as [v|e].
    + eapply keeps_children_trans; [|apply IH].
      split; cbn [gauges errors]; [|done]. intros c. apply insert_is_Some.
    + split; cbn [snd gauges errors]; [|done]. intros c. apply created_is_Some.
Qed.

Lemma poll_probe_keeps E p w : keeps_children w (exec (poll_probe E p) w).
Proof.
  destruct p as [[mac plant] poller]. unfold exec, poll_probe, try_except.
  rewrite poll_reads_schedule.
  pose proof (run_schedule_keeps (env_str E plant) (poller_mac poller)
                (poll_schedule E (poller_mac poller)) w) as Hkeeps.
  unfold exec in Hkeeps.
  destruct (run_schedule _ _ _ w) as [[[]|e|] w1]; [done| |done].
  eapply keeps_children_trans; [exact Hkeeps|].
  unfold error_count_inc, log, mbind, M_bind. cbn [snd].
  split; cbn [emit set_errors gauges errors]; [done|].
  intros key. apply insert_is_Some.
Qed.

Lemma init_probe_keeps E p w : keeps_children w (exec (init_probe E p) w).
Proof.
  destruct p as [[mac plant] poller].
  destruct (env_firmware_version E (clock w) (poller_mac poller))
    as [version|err] eqn:Hfw; unfold exec.
  - rewrite (init_probe_success _ _ _ _ _ _ Hfw).
    split; cbn [snd gauges errors]; [|done]. intros c. apply insert_is_Some.
  - rewrite (init_probe_failure _ _ _ _ _ _ Hfw).
    split; cbn [snd gauges errors]; [done|]. intros key. apply insert_is_Some.
Qed.

Lemma init_loop_keeps E pollers w :
  keeps_children w (exec (for_each pollers (init_probe E)) w).
Proof.
  revert w. induction pollers as [|p l IH]; intros w;
    [apply keeps_children_refl|].
  rewrite init_loop_cons.
  eapply keeps_children_trans; [apply init_probe_keeps|apply IH].
Qed.

Lemma poll_loop_keeps E pollers w :
  keeps_children w (exec (for_each pollers (poll_probe E)) w).
Proof.
  revert w. induction pollers as [|p l IH]; intros w;
    [apply keeps_children_refl|].
  rewrite poll_loop_cons.
  eapply keeps_children_trans; [apply poll_probe_keeps|apply IH].
Qed.

Lemma poll_forever_keeps E pollers fuel w :
  keeps_children w (exec (while_true fuel (polling_cycle E pollers)) w).
Proof.
  revert w. induction fuel as [|fuel IH]; intros w;
    [apply keeps_children_refl|].
  set (w1 := emit (EvSleep 600) (exec (for_each pollers (poll_probe E)) w)).
  assert (exec (while_true (S fuel) (polling_cycle E pollers)) w =
          exec (while_true fuel (polling_cycle E pollers)) w1) as ->.
  { unfold exec at 1 2. by rewrite while_true_step. }
  eapply keeps_children_trans; [|apply IH].
  eapply keeps_children_trans; [apply (poll_loop_keeps E pollers)|].
  by apply keeps_children_same.
Qed.

(** X10.  In every run of [main], whatever the environment, the mode and
    the number of cycles observed: a gauge child or an error counter child
    that exists keeps existing; the script never removes a labelled
    series, so what a scrape once showed for a plant it shows until the
    process ends, however often the probe fails afterwards. *)
Theorem no_series_is_lost E fuel args w :
  keeps_children w (exec (main E fuel args) w).
Proof.
  destruct (main_cases E fuel args w)
    as [(e & _ & Hmain) | [(o & lines & Hmain) | [(e & Hmain) |
        (contents & plants & Hscan & Hopen & Hjson & Hhttp)]]].
  1-3: unfold exec; rewrite Hmain; by apply keeps_children_same.
  rewrite (main_polling_exec E _ args contents plants w Hscan Hopen Hjson Hhttp).
  eapply keeps_children_trans; [|apply poll_forever_keeps].
  eapply keeps_children_trans; [|apply init_loop_keeps].
  by apply keeps_children_same.
Qed.

(** ** The gauge of the read that raises (lines 79-83) *)

Lemma run_schedule_raising lbl pmac (sch : schedule) :
  NoDup sch.*1.*1 →
  ∀ w vs err g r a,
    replies sch (clock w) = (vs, Some err) →
    sch !! length vs = Some (g, r, a) →
    gauges (exec (run_schedule lbl pmac sch) w) !! (g, [lbl]) =
    Some (default 0%Q (gauges w !! (g, [lbl]))).
Proof.
  induction sch as [|[[g0 r0] a0] sch IH]; intros Hnd w vs err g r a Hrep Hk.
  - simpl in Hrep. by injection Hrep.
  - rewrite !fmap_cons in Hnd. apply NoDup_cons in Hnd as [Hg0 Hnd].
    simpl in Hrep. unfold exec. cbn [run_schedule].
    unfold mbind at 1, M_bind at 1. rewrite labels_set_ble.
    destruct (a0 (clock w)) as [v|e] eqn:Ha0.
    + destruct (replies sch (S (clock w))) as [vs' oe'] eqn:Hrep'.
      injection Hrep as <- ->.
      change (sch !! length vs' = Some (g, r, a)) in Hk.
      set (w1 := World (S (clock w)) _ _ _).
      pose proof (IH Hnd w1 vs' err g r a Hrep' Hk) as Hrest.
      unfold exec in Hrest. rewrite Hrest. subst w1. cbn [gauges].
      rewrite lookup_insert_ne; [done|]. intros [= <-]. apply Hg0.
      apply list_elem_of_lookup. exists (length vs').
      by rewrite !list_lookup_fmap, Hk.
    + injection Hrep as <- <-. cbn in Hk. injection Hk as -> -> ->.
      cbn [snd gauges]. unfold created.
      destruct (gauges w !! (g, [lbl])) as [v|] eqn:Hold; cbn.
      * by rewrite Hold.
      * by rewrite lookup_insert_eq.
Qed.

(** X11.  [metric.labels(...)] is evaluated before the read that is its
    argument, so the gauge of a read that raises gets its child anyway:
    after the probe's turn the child exists, with the value it had if it
    existed and with 0 if it did not.  A gauge that was never read for a
    plant is thus exported as 0 once its read has raised. *)
Theorem raising_read_creates_its_child E mac plant poller w vs err g r a :
  let sch := poll_schedule E (poller_mac poller) in
  let lbl := env_str E plant in
  let w' := exec (poll_probe E (mac, plant, poller)) w in
  replies sch (clock w) = (vs, Some err) →
  sch !! length vs = Some (g, r, a) →
  gauges w' !! (g, [lbl]) = Some (default 0%Q (gauges w !! (g, [lbl]))) ∧
  (gauges w !! (g, [lbl]) = None → gauges w' !! (g, [lbl]) = Some 0%Q).
Proof.
  intros sch lbl w' Hrep Hk.
  assert (gauges w' !! (g, [lbl]) = Some (default 0%Q (gauges w !! (g, [lbl]))))
    as Hchild.
  { subst w'. unfold exec, poll_probe, try_except. rewrite poll_reads_schedule.
    pose proof (run_schedule_raising lbl (poller_mac poller) sch
                  (poll_schedule_NoDup E _) w vs err g r a Hrep Hk) as Hraise.
    unfold exec in Hraise. fold sch lbl.
    destruct (run_schedule lbl (poller_mac poller) sch w) as [[[]|e|] w1];
      [done| |done].
    unfold error_count_inc, log, mbind, M_bind. by cbn. }
  split; [done|]. intros Hnone. by rewrite Hchild, Hnone.
Qed.

Lemma raising_read_creates_its_child_witness :
  gauges garden_started !! (conductivity_metric, ["mint"]) = None ∧
  gauges (exec (poll_probe garden mint_03) garden_started)
    !! (conductivity_metric, ["mint"]) = Some 0%Q.
Proof.
  split; [reflexivity|].
  apply (raising_read_creates_its_child garden probe_03 (PyStr "mint")
           {| poller_mac := probe_03 |} garden_started [(88 # 1)%Q] unreachable
           conductivity_metric (ParameterValue "conductivity")
           (λ c, env_parameter_value garden c probe_03 "conductivity")
           eq_refl eq_refl).
  reflexivity.
Defined.

(** ** When the loader fails (lines 23-27) *)

(** X12.  [load_plants] returns a registry exactly when the file can be
    read and holds a JSON object, and then that object (an empty one too);
    it raises exactly in the three cases of a ConfigError, with the
    exception of that case.  Either way it does nothing but open the
    file: no request to a probe, no metric touched. *)
Theorem load_plants_outcomes E file w :
  (∀ d, run (load_plants E file) w = Returned d ↔
        ∃ contents, env_open E file = Ok contents ∧
                    env_json_load E contents = Ok (PyDict d)) ∧
  (∀ e, run (load_plants E file) w = Raised e ↔ ConfigError E file e) ∧
  run (load_plants E file) w ≠ Running ∧
  exec (load_plants E file) w =
    World (clock w) (errors w) (gauges w) (trace w ++ [EvOpen file]).
Proof.
  unfold run, exec.
  destruct (registry_loads_or_config_error E file)
    as [(contents & d0 & Hopen & Hjson) | [e0 He0]].
  - rewrite (load_plants_ok _ _ _ _ _ Hopen Hjson). cbn [fst snd].
    split; [|split; [|done]].
    + intros d. split.
      * intros [= <-]. by exists contents.
      * intros (contents' & Hopen' & Hjson'). congruence.
    + intros e. split; [done|]. intros He. inversion He; congruence.
  - rewrite (load_plants_config_error _ _ _ _ He0). cbn [fst snd].
    split; [|split; [|done]].
    + intros d. split; [done|]. intros (contents & Hopen & Hjson).
      inversion He0; congruence.
    + intros e. split; [by intros [= <-]|]. intros He.
      pose proof (load_plants_config_error _ _ _ w He) as Hload.
      rewrite (load_plants_config_error _ _ _ w He0) in Hload. congruence.
Qed.

(** ** What the scan report depends on (lines 31-33) *)

(** X13.  The scan report depends only on the set of identifiers the scan
    returned and on the set of identifiers of the registry: two scans that
    found the same identifiers, however often and in whatever order, set
    against registries with the same identifiers, whatever their plant
    names and order, print the same lines, up to the order of the
    lines. *)
Theorem scan_report_depends_on_sets E1 E2 (plants1 plants2 : pydict) found1 found2 w1 w2 :
  env_miflora_scan E1 (clock w1) = Ok found1 →
  env_miflora_scan E2 (clock w2) = Ok found2 →
  (∀ m, m ∈ found1 ↔ m ∈ found2) →
  (∀ m, m ∈ plants1.*1 ↔ m ∈ plants2.*1) →
  ∃ lines1 lines2,
    trace (exec (scan_for_new_devices E1 plants1) w1) =
      trace w1 ++ EvScan :: (EvPrint <$> lines1) ∧
    trace (exec (scan_for_new_devices E2 plants2) w2) =
      trace w2 ++ EvScan :: (EvPrint <$> lines2) ∧
    lines1 ≡ₚ lines2.
Proof.
  intros Hscan1 Hscan2 Hfound Hkeys. unfold exec.
  rewrite (scan_for_new_devices_ok E1 plants1 found1) by done.
  rewrite (scan_for_new_devices_ok E2 plants2 found2) by done.
  cbn [snd trace]. eexists _, _. split; [done|]. split; [done|].
  assert ((list_to_set found1 ∖ list_to_set plants1.*1 : gset string) =
          list_to_set found2 ∖ list_to_set plants2.*1) as ->; [|done].
  apply set_eq. intros m.
  by rewrite !elem_of_difference, !elem_of_list_to_set, Hfound, Hkeys.
Qed.

Lemma scan_report_depends_on_sets_witness :
  ∃ lines1 lines2,
    trace (exec (scan_for_new_devices garden garden_registry) initial_world) =
      trace initial_world ++ EvScan :: (EvPrint <$> lines1) ∧
    trace (exec (scan_for_new_devices garden (reverse garden_registry)) garden_started) =
      trace garden_started ++ EvScan :: (EvPrint <$> lines2) ∧
    lines1 ≡ₚ lines2.
Proof.
  apply (scan_report_depends_on_sets garden garden garden_registry
           (reverse garden_registry)
           [probe_04; probe_01; probe_02; probe_03]
           [probe_04; probe_01; probe_02; probe_03]
           initial_world garden_started eq_refl eq_refl).
  - done.
  - intros m. rewrite fmap_reverse. by rewrite elem_of_reverse.
Defined.

(** ** An empty registry (lines 62-87) *)

Lemma poll_forever_nobody E fuel w :
  while_true fuel (polling_cycle E []) w =
  (Running,
   World (clock w) (errors w) (gauges w) (trace w ++ replicate fuel (EvSleep 600))).
Proof.
  revert w. induction fuel as [|fuel IH]; intros w.
  - cbn. rewrite app_nil_r. by destruct w.
  - rewrite while_true_step, IH. cbn. by rewrite <- app_assoc.
Qed.

(** X14.  An empty registry is accepted: in polling mode the exporter
    starts its HTTP server and then only sleeps, cycle after cycle; it
    makes no poller, sends no request and touches no metric, and it does
    not stop. *)
Theorem empty_registry_only_sleeps E fuel args contents w :
  args_scan args = false →
  env_open E (args_plants args) = Ok contents →
  env_json_load E contents = Ok (PyDict []) →
  env_start_http_server E (args_port args) = Ok tt →
  main E fuel args w =
  (Running,
   World (clock w) (errors w) (gauges w)
         (trace w ++ [EvBasicConfig; EvOpen (args_plants args);
                      EvStartHttpServer (args_port args);
                      EvLogStarted (args_port args)]
                  ++ replicate fuel (EvSleep 600))).
Proof.
  intros Hscan Hopen Hjson Hhttp.
  rewrite (main_polling E fuel args contents [] w Hscan Hopen Hjson Hhttp).
  cbn [fmap list_fmap]. rewrite poll_forever_nobody. cbn.
  by rewrite <- app_assoc.
Qed.

Lemma empty_registry_only_sleeps_witness :
  main garden_unplanted 2 (poll_args "plants.json") initial_world =
  (Running,
   World 0 ∅ ∅ [EvBasicConfig; EvOpen "plants.json"; EvStartHttpServer 9004;
                EvLogStarted 9004; EvSleep 600; EvSleep 600]).
Proof.
  exact (empty_registry_only_sleeps garden_unplanted 2 (poll_args "plants.json")
           "{}" initial_world eq_refl eq_refl eq_refl eq_refl).
Defined.

(** ** A probe that is never reachable (lines 67-87) *)

Lemma poll_probe_unreachable E mac plant w e :
  env_battery_level E (clock w) mac = Err e →
  errors (exec (poll_probe E (make_probe (mac, plant))) w) !! [mac; env_str E plant] =
  Some (S (error_count w mac (env_str E plant))).
Proof.
  intros Hbattery.
  assert (replies (poll_schedule E mac) (clock w) = ([], Some e)) as Hrep.
  { unfold poll_schedule. cbn [replies]. by rewrite Hbattery. }
  destruct (poll_probe_spec E mac plant {| poller_mac := mac |} w [] (Some e) Hrep)
    as (G & Hrun & _).
  unfold exec, make_probe. cbn [fst snd]. rewrite Hrun. cbn [snd errors].
  apply lookup_insert_eq.
Qed.

Lemma init_probe_unreachable E mac plant w e :
  env_firmware_version E (clock w) mac = Err e →
  errors (exec (init_probe E (make_probe (mac, plant))) w) !! [mac; env_str E plant] =
  Some (S (error_count w mac (env_str E plant))).
Proof.
  intros Hfw. unfold exec, make_probe. cbn [fst snd].
  rewrite (init_probe_failure E mac plant {| poller_mac := mac |} w e Hfw).
  cbn [snd errors]. apply lookup_insert_eq.
Qed.

Lemma other_probes_keep_counter E (items : pydict) mac lbl :
  mac ∉ items.*1 →
  ∀ p w0, p ∈ make_probe <$> items →
    errors (exec (poll_probe E p) w0) !! [mac; lbl] = errors w0 !! [mac; lbl] ∧
    errors (exec (init_probe E p) w0) !! [mac; lbl] = errors w0 !! [mac; lbl].
Proof.
  intros Hout p w0 ([mac' plant'] & -> & Hin)%list_elem_of_fmap.
  assert (mac' ≠ mac) as Hne.
  { intros ->. apply Hout. apply list_elem_of_fmap. by exists (mac, plant'). }
  split; [apply poll_probe_errors_frame|apply init_probe_errors_frame];
    intros [= ? _]; done.
Qed.

(** X15.  A probe is never given up: if every firmware request and every
    battery request to a registry probe raises, the probe is asked again
    in every cycle, and after the start-up and [fuel] cycles its error
    counter has gone up by exactly [1 + fuel] (one for the start-up, one
    per cycle), whatever the other probes do. *)
Theorem unreachable_probe_counted_every_cycle
    E fuel args contents pre mac plant post w :
  args_scan args = false →
  env_open E (args_plants args) = Ok contents →
  env_json_load E contents = Ok (PyDict (pre ++ (mac, plant) :: post)) →
  env_start_http_server E (args_port args) = Ok tt →
  mac ∉ pre.*1 → mac ∉ post.*1 →
  (∀ c, ∃ e, env_firmware_version E c mac = Err e) →
  (∀ c, ∃ e, env_battery_level E c mac = Err e) →
  error_count (exec (main E fuel args) w) mac (env_str E plant) =
  error_count w mac (env_str E plant) + 1 + fuel.
Proof.
  intros Hscan Hopen Hjson Hhttp Hpre Hpost Hfw Hbattery.
  rewrite (main_polling_exec E _ args contents _ w Hscan Hopen Hjson Hhttp).
  rewrite fmap_app, fmap_cons.
  set (lbl := env_str E plant). set (p := make_probe (mac, plant)).
  set (before := make_probe <$> pre). set (after := make_probe <$> post).
  pose proof (other_probes_keep_counter E pre mac lbl Hpre) as Hbefore.
  pose proof (other_probes_keep_counter E post mac lbl Hpost) as Hafter.
  fold before in Hbefore. fold after in Hafter.
  assert (∀ w0, error_count (exec (for_each (before ++ p :: after) (poll_probe E)) w0)
                  mac lbl = S (error_count w0 mac lbl)) as Hcycle.
  { intros w0. unfold error_count at 1.
    rewrite poll_loop_app, poll_loop_cons.
    rewrite (poll_loop_frame E (λ w1, errors w1 !! [mac; lbl]))
      by (intros; by apply Hafter).
    destruct (Hbattery (clock (exec (for_each before (poll_probe E)) w0))) as [e He].
    subst p lbl. rewrite (poll_probe_unreachable _ _ _ _ _ He). cbn [default].
    f_equal. unfold error_count.
    by rewrite (poll_loop_frame E (λ w1, errors w1 !! [mac; env_str E plant]))
      by (intros; by apply Hbefore). }
  assert (∀ w0, error_count (exec (for_each (before ++ p :: after) (init_probe E)) w0)
                  mac lbl = S (error_count w0 mac lbl)) as Hinit.
  { intros w0. unfold error_count at 1.
    assert (exec (for_each (before ++ p :: after) (init_probe E)) w0 =
            exec (for_each after (init_probe E))
                 (exec (init_probe E p) (exec (for_each before (init_probe E)) w0)))
      as ->.
    { unfold exec at 1.
      rewrite for_each_app by (intros; apply init_probe_returns).
      by rewrite for_each_cons by apply init_probe_returns. }
    rewrite (init_loop_frame E (λ w1, errors w1 !! [mac; lbl]))
      by (intros; by apply Hafter).
    destruct (Hfw (clock (exec (for_each before (init_probe E)) w0))) as [e He].
    subst p lbl. rewrite (init_probe_unreachable _ _ _ _ _ He). cbn [default].
    f_equal. unfold error_count.
    by rewrite (init_loop_frame E (λ w1, errors w1 !! [mac; env_str E plant]))
      by (intros; by apply Hbefore). }
  assert (∀ n w0, error_count (exec (while_true n
                      (polling_cycle E (before ++ p :: after))) w0) mac lbl =
                  error_count w0 mac lbl + n) as Hloop.
  { induction n as [|n IH]; intros w0; [rewrite while_true_0; lia|].
    set (w1 := emit (EvSleep 600)
                 (exec (for_each (before ++ p :: after) (poll_probe E)) w0)).
    assert (exec (while_true (S n) (polling_cycle E (before ++ p :: after))) w0 =
            exec (while_true n (polling_cycle E (before ++ p :: after))) w1) as ->.
    { unfold exec at 1 2. by rewrite while_true_step. }
    rewrite IH. subst w1.
    change (error_count (emit ?e ?w1) mac lbl) with (error_count w1 mac lbl).
    rewrite Hcycle. lia. }
  rewrite Hloop, Hinit. unfold error_count, world_before_init. cbn [errors]. lia.
Qed.

Lemma unreachable_probe_counted_every_cycle_witness :
  error_count (exec (main garden_mint_out_of_range 3 (poll_args "plants.json"))
                    initial_world)
    probe_03 "mint" = 4.
Proof.
  apply (unreachable_probe_counted_every_cycle garden_mint_out_of_range 3
           (poll_args "plants.json")
           "{ the registry }"
           [(probe_01, PyStr "basil"); (probe_02, PyStr "basil")]
           probe_03 (PyStr "mint") [] initial_world
           eq_refl eq_refl eq_refl eq_refl).
  - intros Hin. apply list_elem_of_In in Hin. simpl in Hin.
    destruct Hin as [H|[H|[]]]; discriminate H.
  - apply not_elem_of_nil.
  - intros c. by exists unreachable.
  - intros c. exists unreachable. reflexivity.
Defined.
